(** * ChainSonar: a model of [sonar_scanner.py] and its properties

    The scanner polls an explorer API for a registry of wallets and raises
    an alert for incoming transfers above a threshold.  This file embeds
    the Python code as executable definitions and states its properties.

    Conventions of the embedding:
    - text is ASCII ([string] of [ascii]); [lower] and [strip] act on the
      ASCII range as [str.lower] and [str.strip] do there;
    - Python's [int / int] is true division: the quotient rounded to the
      nearest binary64 number, computed here by the Standard Library's
      [SFdiv]; an amount is the rational ([Q]) that this float stands
      for, and a quotient beyond the largest float raises.  Thresholds are
      the rationals that finite floats stand for; a threshold given as
      [inf] or [nan] on the command line is outside the model;
    - a dict iterated in insertion order is an association list
      ([targets]); a dict only looked up and assigned is a [gmap]
      ([last_seen_block]);
    - exceptions are values of [exn]; a computation that can raise returns
      a sum or an [outcome] carrying the state reached when it raised;
    - the HTTP session is a function from the request parameters to what
      the call yields, indexed by the cycle in which the call is made;
    - [while True] runs a given number of cycles and is then interrupted. *)

From Stdlib Require Import ZArith QArith Qreduction String Ascii List Bool Sorted.
From Stdlib Require Import SpecFloat.
From stdpp Require Import gmap strings.
Import ListNotations.

Local Open Scope string_scope.
Local Open Scope Z_scope.

(** ** Text primitives *)

Module Text.

(** [str.lower] on one character. *)
Definition lower_ascii (c : ascii) : ascii :=
  let n := N_of_ascii c in
  if ((65 <=? n) && (n <=? 90))%N then ascii_of_N (n + 32) else c.

(** [s.lower()] *)
Fixpoint lower (s : string) : string :=
  match s with
  | EmptyString => EmptyString
  | String c r => String (lower_ascii c) (lower r)
  end.

(** [c.isspace()] on the ASCII range: TAB..CR, FS..US and the blank. *)
Definition isspace (c : ascii) : bool :=
  let n := N_of_ascii c in
  (((9 <=? n) && (n <=? 13)) || ((28 <=? n) && (n <=? 32)))%N.

Fixpoint lstrip (s : string) : string :=
  match s with
  | EmptyString => EmptyString
  | String c r => if isspace c then lstrip r else s
  end.

Fixpoint rstrip (s : string) : string :=
  match s with
  | EmptyString => EmptyString
  | String c r =>
      match rstrip r with
      | EmptyString => if isspace c then EmptyString else String c EmptyString
      | r' => String c r'
      end
  end.

(** [s.strip()] *)
Definition strip (s : string) : string := rstrip (lstrip s).

(** [s.split(',')]: never empty, one more field than there are commas. *)
Fixpoint split_comma (s : string) : list string :=
  match s with
  | EmptyString => [EmptyString]
  | String c r =>
      if Ascii.eqb c "," then EmptyString :: split_comma r
      else match split_comma r with
           | f :: fs => String c f :: fs
           | [] => [String c EmptyString]
           end
  end.

(** [s.startswith('#')] *)
Definition startswith_hash (s : string) : bool :=
  match s with
  | String c _ => Ascii.eqb c "#"
  | EmptyString => false
  end.

(** [s[:n]] *)
Fixpoint first_chars (n : nat) (s : string) : string :=
  match n, s with
  | S n', String c r => String c (first_chars n' r)
  | _, _ => EmptyString
  end.

Fixpoint drop_chars (n : nat) (s : string) : string :=
  match n, s with
  | S n', String _ r => drop_chars n' r
  | _, _ => s
  end.

(** [s[-n:]] for [n > 0]: the whole string when it is shorter than [n]. *)
Definition last_chars (n : nat) (s : string) : string :=
  drop_chars (String.length s - n) s.

Definition digit_of (c : ascii) : option Z :=
  let n := N_of_ascii c in
  if ((48 <=? n) && (n <=? 57))%N then Some (Z.of_N (n - 48)) else None.

(** Digits of a decimal literal, single underscores allowed between two
    digits; [fresh] is false at the start and right after an underscore. *)
Fixpoint digits (s : string) (acc : Z) (fresh : bool) : option Z :=
  match s with
  | EmptyString => if fresh then Some acc else None
  | String c r =>
      match digit_of c with
      | Some d => digits r (10 * acc + d) true
      | None => if Ascii.eqb c "_" && fresh then digits r acc false else None
      end
  end.

(** The number of decimal digits in [s]. *)
Fixpoint count_digits (s : string) : nat :=
  match s with
  | EmptyString => O
  | String c r =>
      match digit_of c with
      | Some _ => S (count_digits r)
      | None => count_digits r
      end
  end.

(** [int(s)]: surrounding blanks, an optional sign, a decimal literal of
    at most 4300 digits (the interpreter's default limit); [None] stands
    for [ValueError]. *)
Definition int_of_string (s : string) : option Z :=
  if (4300 <? count_digits s)%nat then None
  else
    match strip s with
    | String "-" r => option_map Z.opp (digits r 0 false)
    | String "+" r => digits r 0 false
    | r => digits r 0 false
    end.

End Text.

(** ** Exceptions *)

Inductive exn : Type :=
| SystemExit (code : Z)   (* sys.exit(code) *)
| EnvironmentError        (* OSError; requests' RequestException derives from it *)
| ValueError              (* int() on malformed text; a body that is not JSON *)
| KeyError
| AttributeError
| TypeError
| OverflowError           (* a quotient too large for a float *)
| ZeroDivisionError.

(** ** Insertion-ordered dict *)

Module PyDict.

(** [d[k] = v]: an existing key keeps its place, a new key goes last. *)
Fixpoint set {V} (k : string) (v : V) (d : list (string * V)) : list (string * V) :=
  match d with
  | [] => [(k, v)]
  | (k', v') :: r => if String.eqb k' k then (k, v) :: r else (k', v') :: set k v r
  end.

(** [d.get(k)] *)
Fixpoint get {V} (k : string) (d : list (string * V)) : option V :=
  match d with
  | [] => None
  | (k', v) :: r => if String.eqb k' k then Some v else get k r
  end.

End PyDict.

(** ** Configuration *)

(** One entry of the allow-list: [{'symbol': ..., 'decimals': ...}]. *)
Record token_info := { symbol : string; decimals : Z }.

(** The allow-list, keyed by contract address exactly as the source
    spells the keys. *)
Definition WATCHED_TOKENS : list (string * token_info) :=
  [ ("0xC02aaA39b223FE8D0A0e5C4F27eAD9083C756Cc2", {| symbol := "WETH"; decimals := 18 |});
    ("0xA0b86991c6218b36c1d19D4a2e9Eb0cE3606eB48", {| symbol := "USDC"; decimals := 6 |});
    ("0xdAC17F958D2ee523a2206206994597C13D831ec7", {| symbol := "USDT"; decimals := 6 |}) ].

(** ** The scanner object *)

(** [self] once constructed.  [targets] maps an address to its display
    name ([{'name': name}] in the source). *)
Record ChainSonar := {
  eth_threshold : Q;
  stable_threshold : Q;
  targets : list (string * string);
  last_seen_block : gmap string (option Z)
}.

(** *** load_targets *)

(** A line the loop skips: [not line.strip() or line.startswith('#')]. *)
Definition skipped (line : string) : bool :=
  match Text.strip line with
  | EmptyString => true
  | _ => Text.startswith_hash line
  end.

(** Address and display name read from a line that is not skipped. *)
Definition parse_line (line : string) : string * string :=
  let parts := map Text.strip (Text.split_comma line) in
  let address := Text.lower (nth 0 parts EmptyString) in
  let name :=
    match parts with
    | _ :: second :: _ => second
    | _ => Text.first_chars 6 address ++ "..." ++ Text.last_chars 4 address
    end in
  (address, name).

(** The [for line in f] loop.  [lsb] is the attribute
    [self.last_seen_block] as the loop finds it: [None] when the attribute
    has not been assigned yet, in which case the first assignment
    [self.last_seen_block[address] = None] raises [AttributeError]. *)
Fixpoint load_lines (lines : list string) (tg : list (string * string))
    (lsb : option (gmap string (option Z)))
  : exn + (list (string * string) * option (gmap string (option Z))) :=
  match lines with
  | [] => inr (tg, lsb)
  | line :: rest =>
      if skipped line then load_lines rest tg lsb
      else
        let '(address, name) := parse_line line in
        let tg' := PyDict.set address name tg in
        match lsb with
        | None => inl AttributeError
        | Some m => load_lines rest tg' (Some (<[address := None]> m))
        end
  end.

(** How the iteration over the open file ends after the lines it has
    yielded. *)
Inductive read_end : Type :=
| EndOfFile
| DecodingFails           (* UnicodeDecodeError, a ValueError *)
| ReadFails.              (* any other I/O failure, an OSError *)

(** whales.txt as [open] and the iteration find it. *)
Inductive whales_file : Type :=
| Missing                 (* open raises FileNotFoundError *)
| NotOpened               (* open raises another OSError: a directory,
                             no permission to read *)
| Opened (lines : list string) (ending : read_end).

(** [load_targets].  Only [FileNotFoundError] is handled: a missing file
    and a file read to its end without a target both end in
    [sys.exit(1)]; any other failure to open or to read goes up to the
    caller. *)
Definition load_targets (lsb : option (gmap string (option Z)))
    (file : whales_file)
  : exn + (list (string * string) * option (gmap string (option Z))) :=
  match file with
  | Missing => inl (SystemExit 1)
  | NotOpened => inl EnvironmentError
  | Opened lines ending =>
      match load_lines lines [] lsb with
      | inl e => inl e
      | inr (tg, lsb') =>
          match ending with
          | DecodingFails => inl ValueError
          | ReadFails => inl EnvironmentError
          | EndOfFile =>
              match tg with
              | [] => inl (SystemExit 1)
              | _ => inr (tg, lsb')
              end
          end
      end
  end.

(** The registry the loop has built at the end of the file when nothing
    stops it: the kept lines, assigned in order. *)
Definition registry_of (lines : list string) : list (string * string) :=
  fold_left (fun d l => PyDict.set (fst (parse_line l)) (snd (parse_line l)) d)
            (List.filter (fun l => negb (skipped l)) lines) [].

(** [not ETHERSCAN_API_KEY]: the variable is unset or empty. *)
Definition key_missing (api_key : option string) : bool :=
  match api_key with
  | None | Some EmptyString => true
  | Some _ => false
  end.

(** [ChainSonar.__init__].  [load_targets] runs before
    [self.last_seen_block] is assigned, so it finds no such attribute;
    the attribute is then bound to a fresh empty dict. *)
Definition init (api_key : option string) (file : whales_file)
    (eth stable : Q) : exn + ChainSonar :=
  if key_missing api_key then inl EnvironmentError
  else
    match load_targets None file with
    | inl e => inl e
    | inr (tg, _) =>
        inr {| eth_threshold := eth; stable_threshold := stable;
               targets := tg; last_seen_block := ∅ |}
    end.

(** ** Transactions and the explorer *)

(** A record of the explorer's [result] array.  The explorer gives every
    field as text; the block number is kept as the integer it spells (a
    record whose [blockNumber] is [null] or not a number is outside the
    model).  [tokenSymbol] and [contractAddress] are keys a record may
    lack. *)
Record tx := {
  tx_to : string;
  tx_value : string;
  tx_blockNumber : Z;
  tx_hash : string;
  tx_tokenSymbol : option string;
  tx_contractAddress : option string
}.

(** The query string of one request, but for [apikey], which is the same
    in all of them.  A parameter whose value is [None] is left out of the
    query by the HTTP library. *)
Record params := {
  p_module : string;
  p_action : string;
  p_address : string;
  p_startblock : option Z;
  p_endblock : string;
  p_sort : string
}.

(** The [result] member of the JSON object in a response. *)
Inductive json_result : Type :=
| ResultAbsent
| ResultNull
| ResultList (records : list tx)
| ResultText (message : string).

(** What [session.get(...).json()] yields. *)
Inductive http_outcome : Type :=
| NetworkError                 (* get raises a RequestException *)
| NotJson                      (* json() raises a JSON decoding error *)
| Body (result : json_result).

(** The explorer as seen in one cycle. *)
Definition explorer := params -> http_outcome.

(** The value of [....json().get('result', [])] and of the expressions
    built from it: [None], a list of records or text. *)
Inductive pyval : Type :=
| PyNone
| PyList (records : list tx)
| PyStr (s : string).

Definition get_result (r : http_outcome) : exn + pyval :=
  match r with
  | NetworkError => inl EnvironmentError
  | NotJson => inl ValueError
  | Body ResultAbsent => inr (PyList [])
  | Body ResultNull => inr PyNone
  | Body (ResultList l) => inr (PyList l)
  | Body (ResultText s) => inr (PyStr s)
  end.

(** [x or []] *)
Definition or_empty (x : pyval) : pyval :=
  match x with
  | PyNone | PyList [] | PyStr EmptyString => PyList []
  | _ => x
  end.

(** [a + b] on the values [or_empty] returns. *)
Definition py_add (a b : pyval) : exn + pyval :=
  match a, b with
  | PyList l1, PyList l2 => inr (PyList (l1 ++ l2))
  | PyStr s1, PyStr s2 => inr (PyStr (s1 ++ s2))
  | _, _ => inl TypeError
  end.

Definition txlist_params (address : string) (start : option Z) : params :=
  {| p_module := "account"; p_action := "txlist"; p_address := address;
     p_startblock := start; p_endblock := "99999999"; p_sort := "desc" |}.

Definition tokentx_params (address : string) (start : option Z) : params :=
  {| p_module := "account"; p_action := "tokentx"; p_address := address;
     p_startblock := start; p_endblock := "99999999"; p_sort := "desc" |}.

(** [fetch_transactions]: [self.last_seen_block[address]] raises
    [KeyError] for an address without an entry. *)
Definition fetch_transactions (self : ChainSonar) (api : explorer)
    (address : string) : exn + pyval :=
  match last_seen_block self !! address with
  | None => inl KeyError
  | Some start =>
      match get_result (api (txlist_params address start)) with
      | inl e => inl e
      | inr eth_txs =>
          match get_result (api (tokentx_params address start)) with
          | inl e => inl e
          | inr token_txs => py_add (or_empty eth_txs) (or_empty token_txs)
          end
      end
  end.

(** ** Classification and alerts *)

(** What the log lines and the notification of one signal carry. *)
Record alert := {
  a_name : string;
  a_address : string;
  a_amount : Q;
  a_symbol : string;
  a_hash : string
}.

(** An integer as a binary number, not rounded. *)
Definition int_as_float (a : Z) : spec_float :=
  match a with
  | Z0 => S754_zero false
  | Zpos p => S754_finite false p 0
  | Zneg p => S754_finite true p 0
  end.

(** The quotient of two integers rounded to the nearest binary64 number,
    ties to even: precision 53, largest exponent 1024. *)
Definition binary64_div (a b : Z) : spec_float :=
  SFdiv 53 1024 (int_as_float a) (int_as_float b).

(** The rational a finite float stands for, in lowest terms. *)
Definition float_value (f : spec_float) : Q :=
  match f with
  | S754_finite s m e =>
      Qred (inject_Z (if s then Zneg m else Zpos m) * Qpower 2 e)
  | _ => 0%Q
  end.

(** [a / b] on two ints, when it returns: the value of the float. *)
Definition truediv (a b : Z) : Q := float_value (binary64_div a b).

(** What [a / b] raises, if it does: [ZeroDivisionError] for a zero
    divisor, [OverflowError] when the rounded quotient is beyond the
    largest float. *)
Definition truediv_error (a b : Z) : option exn :=
  if b =? 0 then Some ZeroDivisionError
  else match binary64_div a b with
       | S754_infinity _ => Some OverflowError
       | _ => None
       end.

(** The part of the loop body that assigns [amount], [symbol] and
    [threshold] for an incoming record.  A token record whose contract is
    not a key of [WATCHED_TOKENS] leaves the three at their initial
    values [0], [''] and [0]. *)
Definition classify (self : ChainSonar) (t : tx) : exn + (Q * string * Q) :=
  match tx_tokenSymbol t with
  | None =>
      match Text.int_of_string (tx_value t) with
      | None => inl ValueError
      | Some v =>
          match truediv_error v (10 ^ 18) with
          | Some e => inl e
          | None => inr (truediv v (10 ^ 18), "ETH", eth_threshold self)
          end
      end
  | Some _ =>
      match tx_contractAddress t with
      | None => inl KeyError
      | Some c =>
          match PyDict.get (Text.lower c) WATCHED_TOKENS with
          | Some token_info =>
              match Text.int_of_string (tx_value t) with
              | None => inl ValueError
              | Some v =>
                  match truediv_error v (10 ^ decimals token_info) with
                  | Some e => inl e
                  | None =>
                      inr (truediv v (10 ^ decimals token_info), symbol token_info,
                           if String.eqb (symbol token_info) "WETH"
                           then eth_threshold self else stable_threshold self)
                  end
              end
          | None => inr (0%Q, EmptyString, 0%Q)
          end
      end
  end.

(** [amount >= threshold] *)
Definition qualifies (amount threshold : Q) : bool := Qle_bool threshold amount.

(** The body of [for tx in txs] for the target [address]: the alert it
    emits, if any. *)
Definition process_tx (self : ChainSonar) (address name : string) (t : tx)
  : exn + option alert :=
  if negb (String.eqb (Text.lower (tx_to t)) address) then inr None
  else
    match classify self t with
    | inl e => inl e
    | inr (amount, sym, threshold) =>
        if qualifies amount threshold
        then inr (Some {| a_name := name; a_address := address; a_amount := amount;
                          a_symbol := sym; a_hash := tx_hash t |})
        else inr None
    end.

(** ** The scan loop *)

(** Where a piece of the loop ends: it ran to its end, or it raised; in
    both cases with the object as mutated so far and the alerts emitted
    so far, oldest first. *)
Inductive outcome : Type :=
| Done (self : ChainSonar) (alerts : list alert)
| Raised (e : exn) (self : ChainSonar) (alerts : list alert).

Definition state_of (o : outcome) : ChainSonar :=
  match o with Done s _ | Raised _ s _ => s end.

Definition alerts_of (o : outcome) : list alert :=
  match o with Done _ a | Raised _ _ a => a end.

(** Alerts emitted before [o] are put in front of those of [o]. *)
Definition after (before : list alert) (o : outcome) : outcome :=
  match o with
  | Done s a => Done s (before ++ a)
  | Raised e s a => Raised e s (before ++ a)
  end.

(** [for tx in txs] *)
Fixpoint process_txs (self : ChainSonar) (address name : string) (txs : list tx)
  : outcome :=
  match txs with
  | [] => Done self []
  | t :: rest =>
      match process_tx self address name t with
      | inl e => Raised e self []
      | inr None => process_txs self address name rest
      | inr (Some a) => after [a] (process_txs self address name rest)
      end
  end.

(** [self.last_seen_block[address] = block] *)
Definition set_last_seen (self : ChainSonar) (address : string) (block : Z)
  : ChainSonar :=
  {| eth_threshold := eth_threshold self;
     stable_threshold := stable_threshold self;
     targets := targets self;
     last_seen_block := <[address := Some block]> (last_seen_block self) |}.

(** The body of [for address, data in self.targets.items()]. *)
Definition scan_target (self : ChainSonar) (api : explorer)
    (address name : string) : outcome :=
  match fetch_transactions self api address with
  | inl e => Raised e self []
  | inr PyNone => Done self []
  | inr (PyList []) => Done self []
  | inr (PyStr EmptyString) => Done self []
  | inr (PyStr _) => Raised TypeError self []
  | inr (PyList (first :: rest)) =>
      let self' := set_last_seen self address (tx_blockNumber first) in
      process_txs self' address name (first :: rest)
  end.

(** The [for] loop over the items [tg] of the registry. *)
Fixpoint scan_targets (self : ChainSonar) (api : explorer)
    (tg : list (string * string)) : outcome :=
  match tg with
  | [] => Done self []
  | (address, name) :: rest =>
      match scan_target self api address name with
      | Done self' a => after a (scan_targets self' api rest)
      | Raised e self' a => Raised e self' a
      end
  end.

(** One turn of [while True]. *)
Definition run_cycle (self : ChainSonar) (api : explorer) : outcome :=
  scan_targets self api (targets self).

(** [n] turns of [while True], the first being cycle [k]; [api c] is the
    explorer during cycle [c]. *)
Fixpoint run_cycles (n k : nat) (self : ChainSonar) (api : nat -> explorer)
  : outcome :=
  match n with
  | O => Done self []
  | S n' =>
      match run_cycle self (api k) with
      | Done self' a => after a (run_cycles n' (S k) self' api)
      | Raised e self' a => Raised e self' a
      end
  end.

(** [run], interrupted from the keyboard after [n] full cycles: the
    handler logs and calls [sys.exit(0)].  Any other exception leaves
    [run] as it is. *)
Definition run (n : nat) (self : ChainSonar) (api : nat -> explorer) : outcome :=
  match run_cycles n 0 self api with
  | Done self' a => Raised (SystemExit 0) self' a
  | o => o
  end.

(** ** The program *)

(** [except (ValueError, EnvironmentError)] *)
Definition caught_by_main (e : exn) : bool :=
  match e with
  | ValueError | EnvironmentError => true
  | _ => false
  end.

(** Exit status of the interpreter when the script ends with [e]: the
    handler of [__main__] prints and the script ends normally; [sys.exit]
    gives its code; any other exception ends in a traceback and status 1. *)
Definition exit_status (e : exn) : Z :=
  if caught_by_main e then 0
  else match e with
       | SystemExit code => code
       | _ => 1
       end.

(** How a run of the program ends: its exit status, whether [run] was
    entered, and the alerts it emitted. *)
Record ending := {
  status : Z;
  entered_loop : bool;
  emitted : list alert
}.

(** The [__main__] block. *)
Definition main (api_key : option string) (file : whales_file)
    (eth stable : Q) (api : nat -> explorer) (n : nat) : ending :=
  match init api_key file eth stable with
  | inl e => {| status := exit_status e; entered_loop := false; emitted := [] |}
  | inr sonar =>
      match run n sonar api with
      | Done _ a => {| status := 0; entered_loop := true; emitted := a |}
      | Raised e _ a => {| status := exit_status e; entered_loop := true; emitted := a |}
      end
  end.

(** ** Predicates used in the statements *)

(** A block is within a request's lower bound: an absent [startblock]
    bounds nothing. *)
Definition from_block (start : option Z) (block : Z) : Prop :=
  match start with
  | None => True
  | Some w => w <= block
  end.

Definition from_blockb (start : option Z) (block : Z) : bool :=
  match start with
  | None => true
  | Some w => w <=? block
  end.

(** Most recent block first. *)
Definition descending (l : list tx) : Prop :=
  StronglySorted (fun a b => tx_blockNumber b <= tx_blockNumber a) l.

(** The explorer keeps to the request: every record it returns lies at
    or above [startblock]. *)
Definition lower_bounded (api : explorer) : Prop :=
  forall p l, api p = Body (ResultList l) ->
    Forall (fun t => from_block (p_startblock p) (tx_blockNumber t)) l.

(** The explorer keeps to the request and to [sort=desc]. *)
Definition honours_request (api : explorer) : Prop :=
  forall p l, api p = Body (ResultList l) ->
    Forall (fun t => from_block (p_startblock p) (tx_blockNumber t)) l /\ descending l.

(** The watermark of [address], once set, is set in [s2] and not lower. *)
Definition never_decreases (address : string) (s1 s2 : ChainSonar) : Prop :=
  forall b, last_seen_block s1 !! address = Some (Some b) ->
    exists b', last_seen_block s2 !! address = Some (Some b') /\ b <= b'.

(** A response whose [result] member is missing or [null]. *)
Definition absent_or_null (r : http_outcome) : Prop :=
  r = Body ResultAbsent \/ r = Body ResultNull.

(** An explorer answering from a fixed ledger: the native transfers for
    [txlist], the token transfers for [tokentx], in both cases the records
    at or above [startblock], in ledger order. *)
Definition ledger_explorer (native tokens : list tx) : explorer :=
  fun p =>
    let records :=
      if String.eqb (p_action p) "txlist" then native
      else if String.eqb (p_action p) "tokentx" then tokens
      else [] in
    Body (ResultList
            (List.filter (fun t => from_blockb (p_startblock p) (tx_blockNumber t)) records)).

(** ** Sample data *)

Module Sample.

Definition nl : string := String (ascii_of_nat 10) EmptyString.

(** A scanner watching two wallets, with the default thresholds, before
    its first fetch. *)
Definition sonar : ChainSonar :=
  {| eth_threshold := 10; stable_threshold := 20000;
     targets := [("0xaaa", "Whale1"); ("0xbbb", "Whale2")];
     last_seen_block := {[ "0xaaa" := None; "0xbbb" := None ]} |}.

(** 20 ETH sent to 0xbbb in block 120. *)
Definition native_to_b : tx :=
  {| tx_to := "0xBBB"; tx_value := "20000000000000000000"; tx_blockNumber := 120;
     tx_hash := "0x01"; tx_tokenSymbol := None; tx_contractAddress := None |}.

(** 10 ETH sent to 0xaaa in block 100: exactly the default threshold. *)
Definition native_to_a : tx :=
  {| tx_to := "0xAAA"; tx_value := "10000000000000000000"; tx_blockNumber := 100;
     tx_hash := "0x02"; tx_tokenSymbol := None; tx_contractAddress := None |}.

(** 5 ETH sent to 0xaaa in block 90: below the threshold. *)
Definition small_to_a : tx :=
  {| tx_to := "0xaaa"; tx_value := "5000000000000000000"; tx_blockNumber := 90;
     tx_hash := "0x03"; tx_tokenSymbol := None; tx_contractAddress := None |}.

(** 20 ETH sent by 0xaaa to someone else. *)
Definition outgoing_from_a : tx :=
  {| tx_to := "0xccc"; tx_value := "20000000000000000000"; tx_blockNumber := 95;
     tx_hash := "0x04"; tx_tokenSymbol := None; tx_contractAddress := None |}.

(** 25 USDC sent to 0xaaa, the contract address spelled as the explorer
    returns it (lowercase). *)
Definition usdc_to_a : tx :=
  {| tx_to := "0xaaa"; tx_value := "25000000"; tx_blockNumber := 101;
     tx_hash := "0x05"; tx_tokenSymbol := Some "USDC";
     tx_contractAddress := Some "0xa0b86991c6218b36c1d19d4a2e9eb0ce3606eb48" |}.

(** The same transfer with the contract address spelled as the
    allow-list spells it. *)
Definition usdc_checksum_to_a : tx :=
  {| tx_to := "0xaaa"; tx_value := "25000000"; tx_blockNumber := 101;
     tx_hash := "0x05"; tx_tokenSymbol := Some "USDC";
     tx_contractAddress := Some "0xA0b86991c6218b36c1d19D4a2e9Eb0cE3606eB48" |}.

(** One unit of a token that is not on the allow-list, sent to 0xaaa. *)
Definition unwatched_to_a : tx :=
  {| tx_to := "0xaaa"; tx_value := "1"; tx_blockNumber := 102;
     tx_hash := "0x06"; tx_tokenSymbol := Some "SHIB";
     tx_contractAddress := Some "0x95ad61b0a150d79219dcf64e1e6cc01f0b64c4ce" |}.

(** A native record whose value is not a number. *)
Definition malformed_to_a : tx :=
  {| tx_to := "0xaaa"; tx_value := "n/a"; tx_blockNumber := 103;
     tx_hash := "0x07"; tx_tokenSymbol := None; tx_contractAddress := None |}.

(** The network is down for 0xaaa; 0xbbb has received 20 ETH. *)
Definition down_for_a : explorer :=
  fun p =>
    if String.eqb (p_address p) "0xaaa" then NetworkError
    else if String.eqb (p_action p) "txlist" then Body (ResultList [native_to_b])
    else Body (ResultList []).

(** 0xaaa has a malformed record; 0xbbb has received 20 ETH. *)
Definition malformed_for_a : explorer :=
  fun p =>
    if String.eqb (p_action p) "txlist" then
      if String.eqb (p_address p) "0xaaa" then Body (ResultList [malformed_to_a])
      else Body (ResultList [native_to_b])
    else Body (ResultList []).

(** Both responses lack a usable [result]. *)
Definition no_result : explorer :=
  fun p => if String.eqb (p_action p) "txlist" then Body ResultAbsent else Body ResultNull.

(** A ledger with two native transfers to 0xaaa and one token transfer. *)
Definition ledger : explorer :=
  ledger_explorer [native_to_a; small_to_a] [unwatched_to_a].

(** A registry file: a comment, a blank line, two wallets, and the
    first wallet once more under another name. *)
Definition whales : list string :=
  [ "# whales" ++ nl; nl;
    "0xAAA,Whale1" ++ nl;
    "0x00000000219ab540356cBB839Cbe05303d7705Fa" ++ nl;
    "0xaaa, Renamed" ++ nl ].

End Sample.

(** ** Further predicates and cases *)

(** [',' not in s] *)
Fixpoint comma_free (s : string) : bool :=
  match s with
  | EmptyString => true
  | String c r => negb (Ascii.eqb c ",") && comma_free r
  end.

(** A [result] that is a non-empty text, as the explorer sends with an
    error status (a rate limit, a bad key). *)
Definition error_text (r : json_result) : bool :=
  match r with
  | ResultText (String _ _) => true
  | _ => false
  end.

(** The second object has the registry and the thresholds of the first. *)
Definition same_configuration (s1 s2 : ChainSonar) : Prop :=
  targets s2 = targets s1 /\
  eth_threshold s2 = eth_threshold s1 /\
  stable_threshold s2 = stable_threshold s1.

Module Cases.

(** A registry file of one wallet. *)
Definition one_whale : list string := [ "0xA,Whale" ].

(** The scanner [__init__] would build from it: the registry, and the
    empty dict bound to [last_seen_block] after the registry is loaded. *)
Definition unmarked : ChainSonar :=
  {| eth_threshold := 10; stable_threshold := 20000;
     targets := [("0xa", "Whale")]; last_seen_block := ∅ |}.

(** The sample scanner with both thresholds lowered. *)
Definition eager : ChainSonar :=
  {| eth_threshold := 1; stable_threshold := 100;
     targets := targets Sample.sonar;
     last_seen_block := last_seen_block Sample.sonar |}.

(** The explorer refuses the native request with a message. *)
Definition rate_limited : explorer :=
  fun p =>
    if String.eqb (p_action p) "txlist" then Body (ResultText "Max rate limit reached")
    else Body (ResultList []).

(** One wei less than 10 ETH sent to 0xaaa: the quotient by [10**18]
    is not a float, the nearest float is 10.0. *)
Definition just_below : tx :=
  {| tx_to := "0xaaa"; tx_value := "9999999999999999999"; tx_blockNumber := 104;
     tx_hash := "0x08"; tx_tokenSymbol := None; tx_contractAddress := None |}.

(** A native record whose value, 2 followed by 326 zeros, is more than
    [10**18] times the largest float. *)
Definition beyond_floats : tx :=
  {| tx_to := "0xaaa";
     tx_value := "200000000000000000000000000000000000000000000000000000000000000000000000000000000000000000000000000000000000000000000000000000000000000000000000000000000000000000000000000000000000000000000000000000000000000000000000000000000000000000000000000000000000000000000000000000000000000000000000000000000000000000000000000000000000000";
     tx_blockNumber := 105;
     tx_hash := "0x09"; tx_tokenSymbol := None; tx_contractAddress := None |}.

(** A native transfer in block 100 and a token transfer in block 102. *)
Definition mixed : explorer :=
  fun p =>
    if String.eqb (p_action p) "txlist" then Body (ResultList [Sample.native_to_a])
    else Body (ResultList [Sample.unwatched_to_a]).

End Cases.

(** * Properties *)

(** ** Text and dict *)

Lemma lower_ascii_idem (c : ascii) :
  Text.lower_ascii (Text.lower_ascii c) = Text.lower_ascii c.
Proof. destruct c as [[] [] [] [] [] [] [] []]; reflexivity. Qed.

Lemma lower_idem (s : string) : Text.lower (Text.lower s) = Text.lower s.
Proof.
  induction s as [|c r IH]; simpl; [reflexivity|].
  now rewrite lower_ascii_idem, IH.
Qed.

Lemma get_set_eq {V} (k : string) (v : V) (d : list (string * V)) :
  PyDict.get k (PyDict.set k v d) = Some v.
Proof.
  induction d as [|[k' v'] r IH]; simpl.
  - now rewrite String.eqb_refl.
  - destruct (String.eqb_spec k' k) as [->|Hne]; simpl.
    + now rewrite String.eqb_refl.
    + destruct (String.eqb_spec k' k); [contradiction|exact IH].
Qed.

Lemma get_set_ne {V} (k k0 : string) (v : V) (d : list (string * V)) :
  k <> k0 -> PyDict.get k0 (PyDict.set k v d) = PyDict.get k0 d.
Proof.
  intros Hne. induction d as [|[k' v'] r IH]; simpl.
  - destruct (String.eqb_spec k k0); [contradiction|reflexivity].
  - destruct (String.eqb_spec k' k) as [->|Hk]; simpl.
    + destruct (String.eqb_spec k k0); [contradiction|reflexivity].
    + now rewrite IH.
Qed.

(** ** The allow-list *)

(** No lowercased text is a key of the allow-list: every key has a
    capital letter. *)
Lemma lowered_never_watched (s : string) :
  PyDict.get (Text.lower s) WATCHED_TOKENS = None.
Proof.
  assert (Hkeys : Forall (fun kv => Text.lower (fst kv) <> fst kv) WATCHED_TOKENS).
  { repeat constructor; discriminate. }
  induction Hkeys as [|[k i] r Hk _ IH]; simpl; [reflexivity|].
  destruct (String.eqb_spec k (Text.lower s)) as [->|_]; [|exact IH].
  exfalso. apply Hk. apply lower_idem.
Qed.

(** An incoming token record is never matched with the allow-list: the
    three values keep their defaults, whatever the contract and the value. *)
Lemma token_record_defaults (self : ChainSonar) (t : tx) (sym c : string) :
  tx_tokenSymbol t = Some sym -> tx_contractAddress t = Some c ->
  classify self t = inr (0%Q, EmptyString, 0%Q).
Proof.
  intros Hs Hc. unfold classify. rewrite Hs, Hc.
  now rewrite lowered_never_watched.
Qed.

(** ... and so it always raises an alert, of amount 0 and no symbol. *)
Lemma token_record_alerts (self : ChainSonar) (address name : string) (t : tx)
    (sym c : string) :
  Text.lower (tx_to t) = address ->
  tx_tokenSymbol t = Some sym -> tx_contractAddress t = Some c ->
  process_tx self address name t =
    inr (Some {| a_name := name; a_address := address; a_amount := 0;
                 a_symbol := EmptyString; a_hash := tx_hash t |}).
Proof.
  intros Hto Hs Hc. unfold process_tx.
  rewrite Hto, String.eqb_refl. simpl.
  now rewrite (token_record_defaults self t sym c Hs Hc).
Qed.

(** C1 (the code departs from the claim): a transfer to the watched wallet
    0xaaa of a token whose contract is not on the allow-list raises an
    alert, of amount 0 and with an empty symbol, because the defaults
    [amount = 0] and [threshold = 0] pass the comparison. *)
Theorem unwatched_token_raises_alert :
  PyDict.get "0x95ad61b0a150d79219dcf64e1e6cc01f0b64c4ce" WATCHED_TOKENS = None /\
  process_tx Sample.sonar "0xaaa" "Whale1" Sample.unwatched_to_a =
    inr (Some {| a_name := "Whale1"; a_address := "0xaaa"; a_amount := 0;
                 a_symbol := ""; a_hash := "0x06" |}) /\
  alerts_of (scan_target Sample.sonar
               (ledger_explorer [] [Sample.unwatched_to_a]) "0xaaa" "Whale1") =
    [ {| a_name := "Whale1"; a_address := "0xaaa"; a_amount := 0;
         a_symbol := ""; a_hash := "0x06" |} ].
Proof. repeat split; vm_compute; reflexivity. Qed.

(** C2 (the code departs from the claim): a record carrying the USDC
    contract address and the value 25000000 is not classified as 25 USDC.
    The lookup key is lowercased, the keys of the allow-list are not, so
    the record keeps amount 0 and the empty symbol; this holds for the
    lowercase spelling of the address and for the allow-list's own. *)
Theorem usdc_record_not_classified (self : ChainSonar) :
  classify self Sample.usdc_to_a = inr (0%Q, "", 0%Q) /\
  classify self Sample.usdc_checksum_to_a = inr (0%Q, "", 0%Q) /\
  truediv 25000000 (10 ^ 6) = 25%Q.
Proof. repeat split. Qed.

(** ** Start-up *)

(** C5 (the code departs from the claim): without an API key the
    constructor raises [EnvironmentError], the handler of [__main__]
    prints it and the script ends normally: exit status 0, whatever the
    registry file, the thresholds and the explorer. *)
Theorem missing_key_exits_with_0 (file : whales_file) (eth stable : Q)
    (api : nat -> explorer) (n : nat) :
  main None file eth stable api n =
    {| status := 0; entered_loop := false; emitted := [] |} /\
  main (Some "") file eth stable api n =
    {| status := 0; entered_loop := false; emitted := [] |}.
Proof. split; reflexivity. Qed.

(** The sibling failures do end with a non-zero status: a missing file
    and a file without any target leave through [sys.exit(1)]. *)
Lemma missing_file_exits_with_1 (key : string) (eth stable : Q)
    (api : nat -> explorer) (n : nat) :
  key <> EmptyString ->
  main (Some key) Missing eth stable api n =
    {| status := 1; entered_loop := false; emitted := [] |}.
Proof. intros Hk. destruct key; [contradiction|reflexivity]. Qed.

Lemma skipped_lines_load (lines : list string) (tg : list (string * string))
    (lsb : option (gmap string (option Z))) :
  forallb skipped lines = true -> load_lines lines tg lsb = inr (tg, lsb).
Proof.
  induction lines as [|l r IH]; simpl; [reflexivity|].
  destruct (skipped l); simpl; [exact IH|discriminate].
Qed.

Lemma empty_registry_exits_with_1 (key : string) (lines : list string)
    (eth stable : Q) (api : nat -> explorer) (n : nat) :
  key <> EmptyString -> forallb skipped lines = true ->
  main (Some key) (Opened lines EndOfFile) eth stable api n =
    {| status := 1; entered_loop := false; emitted := [] |}.
Proof.
  intros Hk Hl. destruct key; [contradiction|].
  unfold main, init, load_targets. simpl.
  now rewrite (skipped_lines_load lines [] None Hl).
Qed.

(** With the attribute missing, the loop raises at the first line it
    keeps. *)
Lemma kept_line_raises (lines : list string) (tg : list (string * string)) :
  forallb skipped lines = false -> load_lines lines tg None = inl AttributeError.
Proof.
  induction lines as [|l r IH]; simpl; [discriminate|].
  destruct (skipped l); simpl; [exact IH|].
  intros _. now destruct (parse_line l).
Qed.

(** The constructor therefore never returns a scanner: [load_targets]
    runs before [self.last_seen_block] is assigned. *)
Lemma init_never_returns (api_key : option string) (file : whales_file)
    (eth stable : Q) :
  exists e, init api_key file eth stable = inl e.
Proof.
  unfold init. destruct (key_missing api_key); [eauto|].
  destruct file as [| |lines ending]; simpl; [eauto|eauto|].
  destruct (forallb skipped lines) eqn:Hl.
  - rewrite (skipped_lines_load lines [] None Hl). destruct ending; eauto.
  - rewrite (kept_line_raises lines [] Hl). eauto.
Qed.

(** As a consequence the program never enters the scan loop. *)
Lemma main_never_scans (api_key : option string) (file : whales_file)
    (eth stable : Q) (api : nat -> explorer) (n : nat) :
  entered_loop (main api_key file eth stable api n) = false.
Proof.
  unfold main.
  destruct (init_never_returns api_key file eth stable) as [e ->]. reflexivity.
Qed.

(** With the attribute present the loop folds the kept lines into the
    registry and gives each address an unset watermark. *)
Lemma load_lines_present (lines : list string) (tg : list (string * string))
    (m : gmap string (option Z)) :
  load_lines lines tg (Some m) =
    inr (fold_left (fun d l => PyDict.set (fst (parse_line l)) (snd (parse_line l)) d)
                   (List.filter (fun l => negb (skipped l)) lines) tg,
         Some (fold_left (fun d l => <[fst (parse_line l) := None]> d)
                         (List.filter (fun l => negb (skipped l)) lines) m)).
Proof.
  revert tg m. induction lines as [|l r IH]; intros tg m; simpl; [reflexivity|].
  destruct (skipped l); simpl; [apply IH|].
  destruct (parse_line l) as [address name]. simpl. apply IH.
Qed.

Lemma load_lines_registry (lines : list string) (m : gmap string (option Z)) :
  exists m', load_lines lines [] (Some m) = inr (registry_of lines, Some m').
Proof. rewrite load_lines_present. eauto. Qed.

(** A binding survives the lines that assign other addresses. *)
Lemma get_after_other_lines (back : list string) (k v : string)
    (d : list (string * string)) :
  PyDict.get k d = Some v ->
  Forall (fun l => skipped l = false -> fst (parse_line l) <> k) back ->
  PyDict.get k
    (fold_left (fun d l => PyDict.set (fst (parse_line l)) (snd (parse_line l)) d)
               (List.filter (fun l => negb (skipped l)) back) d) = Some v.
Proof.
  intros Hd Hback. revert d Hd.
  induction Hback as [|l r Hl _ IH]; intros d Hd; [exact Hd|].
  cbn [List.filter]. destruct (skipped l) eqn:Hs; cbn [negb fold_left].
  - now apply IH.
  - apply IH. rewrite get_set_ne; [exact Hd|]. now apply Hl.
Qed.

(** X1: in that registry a line's address is bound to the line's name
    unless a later line rebinds it: the last occurrence wins. *)
Lemma registry_last_wins (front back : list string) (line : string) :
  skipped line = false ->
  Forall (fun l => skipped l = false -> fst (parse_line l) <> fst (parse_line line)) back ->
  PyDict.get (fst (parse_line line)) (registry_of (front ++ line :: back)) =
    Some (snd (parse_line line)).
Proof.
  intros Hk Hback. unfold registry_of.
  rewrite List.filter_app, fold_left_app.
  cbn [List.filter]. rewrite Hk. cbn [negb fold_left].
  apply get_after_other_lines; [apply get_set_eq|exact Hback].
Qed.

(** X2: every address of that registry is in lowercase. *)
Lemma registry_keys_lowercase (lines : list string) :
  Forall (fun kv => Text.lower (fst kv) = fst kv) (registry_of lines).
Proof.
  unfold registry_of.
  generalize (List.filter (fun l => negb (skipped l)) lines). intros kept.
  assert (H0 : Forall (fun kv : string * string => Text.lower (fst kv) = fst kv) [])
    by constructor.
  revert H0. generalize (@nil (string * string)).
  induction kept as [|l r IH]; intros d Hd; [exact Hd|].
  cbn [fold_left]. apply IH.
  assert (Hk : Text.lower (fst (parse_line l)) = fst (parse_line l))
    by apply lower_idem.
  revert Hk. generalize (fst (parse_line l)) (snd (parse_line l)). intros k v Hk.
  induction Hd as [|[k' v'] d' Hk' Hd' IHd]; simpl.
  - repeat constructor. exact Hk.
  - destruct (String.eqb k' k); constructor; assumption.
Qed.

(** C9 (the code departs from the claim): the constructor calls
    [load_targets] before it assigns [self.last_seen_block]; on the first
    line that is neither blank nor a comment the loop raises
    [AttributeError], no registry is returned and the program ends with
    status 1 without scanning.  Run on an existing attribute, the same
    loop reads the sample file as the claim says. *)
Theorem registry_load_raises :
  init (Some "key") (Opened Sample.whales EndOfFile) 10 20000 = inl AttributeError /\
  (forall api n,
     main (Some "key") (Opened Sample.whales EndOfFile) 10 20000 api n =
       {| status := 1; entered_loop := false; emitted := [] |}) /\
  registry_of Sample.whales =
    [ ("0xaaa", "Renamed");
      ("0x00000000219ab540356cbb839cbe05303d7705fa", "0x0000...05fa") ].
Proof. repeat split. Qed.

(** ** The scan loop: frame and composition *)

Lemma after_nil (o : outcome) : after [] o = o.
Proof. now destruct o. Qed.

Lemma after_after (a b : list alert) (o : outcome) :
  after a (after b o) = after (a ++ b) o.
Proof. destruct o; simpl; now rewrite app_assoc. Qed.

Lemma state_of_after (a : list alert) (o : outcome) : state_of (after a o) = state_of o.
Proof. now destruct o. Qed.

(** Handling a record reads the thresholds only. *)
Lemma process_tx_set_last_seen (self : ChainSonar) (a : string) (b : Z)
    (address name : string) (t : tx) :
  process_tx (set_last_seen self a b) address name t = process_tx self address name t.
Proof. reflexivity. Qed.

(** The record loop does not touch the object. *)
Lemma process_txs_state (self : ChainSonar) (address name : string) (txs : list tx) :
  state_of (process_txs self address name txs) = self.
Proof.
  induction txs as [|t r IH]; simpl; [reflexivity|].
  destruct (process_tx self address name t) as [e|[a|]]; simpl;
    [reflexivity| |exact IH].
  now rewrite state_of_after.
Qed.

Lemma scan_targets_app (self : ChainSonar) (api : explorer)
    (l1 l2 : list (string * string)) :
  scan_targets self api (l1 ++ l2) =
    match scan_targets self api l1 with
    | Done s a => after a (scan_targets s api l2)
    | Raised e s a => Raised e s a
    end.
Proof.
  revert self. induction l1 as [|[address name] r IH]; intros self; simpl.
  - now rewrite after_nil.
  - destruct (scan_target self api address name) as [s a|e s a]; [|reflexivity].
    rewrite IH. destruct (scan_targets s api r) as [s' a'|e' s' a']; simpl.
    + now rewrite after_after.
    + reflexivity.
Qed.

Lemma run_cycles_add (m j k : nat) (self : ChainSonar) (api : nat -> explorer) :
  run_cycles (m + j) k self api =
    match run_cycles m k self api with
    | Done s a => after a (run_cycles j (m + k) s api)
    | Raised e s a => Raised e s a
    end.
Proof.
  revert k self. induction m as [|m IH]; intros k self; simpl.
  - now rewrite after_nil.
  - destruct (run_cycle self (api k)) as [s a|e s a]; [|reflexivity].
    rewrite IH. replace (m + S k)%nat with (S (m + k)) by lia.
    destruct (run_cycles m (S k) s api) as [s' a'|e' s' a']; simpl.
    + now rewrite after_after.
    + reflexivity.
Qed.

(** ** Threshold and direction *)

(** C6: for an incoming record whose amount and threshold the loop has
    computed, an alert is emitted exactly when [amount >= threshold]; in
    particular when the two are equal. *)
Theorem threshold_is_inclusive (self : ChainSonar) (address name : string) (t : tx)
    (amount threshold : Q) (sym : string) :
  Text.lower (tx_to t) = address ->
  classify self t = inr (amount, sym, threshold) ->
  ((exists a, process_tx self address name t = inr (Some a)) <-> (threshold <= amount)%Q) /\
  ((amount == threshold)%Q -> exists a, process_tx self address name t = inr (Some a)).
Proof.
  intros Hto Hc.
  assert (Hiff : (exists a, process_tx self address name t = inr (Some a))
                 <-> (threshold <= amount)%Q).
  { unfold process_tx. rewrite Hto, String.eqb_refl, Hc. simpl.
    unfold qualifies. destruct (Qle_bool threshold amount) eqn:Hq.
    - split; [intros _; now apply Qle_bool_iff|eauto].
    - split; [intros [a Ha]; discriminate|].
      intros Hle. apply Qle_bool_iff in Hle. congruence. }
  split; [exact Hiff|].
  intros Heq. apply Hiff. rewrite Heq. apply Qle_refl.
Qed.

(** One wei less than 10 ETH against the threshold 10: the amount is the
    float 10.0, equal to the threshold, and the record qualifies. *)
Lemma threshold_is_inclusive_witness :
  exists a, process_tx Sample.sonar "0xaaa" "Whale1" Cases.just_below = inr (Some a).
Proof.
  apply (threshold_is_inclusive Sample.sonar "0xaaa" "Whale1" Cases.just_below
           10 10 "ETH"); vm_compute; reflexivity.
Defined.

(** The amounts the comparison sees are floats: the quotient is rounded
    before it is compared, and 10 ETH itself gives the same amount. *)
Lemma amounts_are_rounded :
  truediv 9999999999999999999 (10 ^ 18) = 10%Q /\
  truediv 10000000000000000000 (10 ^ 18) = 10%Q /\
  truediv 9999999999999999000 (10 ^ 18) = (5629499534213119 # 562949953421312)%Q /\
  process_tx Sample.sonar "0xaaa" "Whale1" Cases.just_below =
    inr (Some {| a_name := "Whale1"; a_address := "0xaaa"; a_amount := 10;
                 a_symbol := "ETH"; a_hash := "0x08" |}).
Proof. repeat split; vm_compute; reflexivity. Qed.

(** A quotient beyond the largest float raises instead of comparing. *)
Lemma huge_value_raises (self : ChainSonar) :
  classify self Cases.beyond_floats = inl OverflowError.
Proof. vm_compute. reflexivity. Qed.

(** C7: a record whose [to] differs from the target's address, letter
    case aside, emits no alert: the loop moves on to the next record. *)
Theorem other_recipient_never_alerts (self : ChainSonar) (address name : string)
    (t : tx) :
  Text.lower (tx_to t) <> Text.lower address ->
  process_tx self address name t = inr None.
Proof.
  intros Hne. unfold process_tx.
  destruct (String.eqb_spec (Text.lower (tx_to t)) address) as [Heq|_]; [|reflexivity].
  exfalso. apply Hne. rewrite <- Heq. symmetry. apply lower_idem.
Qed.

Lemma other_recipient_never_alerts_witness :
  process_tx Sample.sonar "0xaaa" "Whale1" Sample.outgoing_from_a = inr None.
Proof.
  apply (other_recipient_never_alerts Sample.sonar "0xaaa" "Whale1"
           Sample.outgoing_from_a).
  vm_compute. discriminate.
Defined.

(** A whole batch of such records leaves the scan silent. *)
Lemma other_recipients_are_silent (self : ChainSonar) (address name : string)
    (txs : list tx) :
  Forall (fun t => Text.lower (tx_to t) <> Text.lower address) txs ->
  process_txs self address name txs = Done self [].
Proof.
  induction 1 as [|t r Ht _ IH]; simpl; [reflexivity|].
  now rewrite (other_recipient_never_alerts self address name t Ht).
Qed.

(** ** Empty answers *)

(** C8: when the [result] of both responses is missing or [null], the
    fetch returns the empty list and the scan of the target ends at once:
    no alert, and the object, the watermark included, is as before. *)
Theorem empty_result_changes_nothing (self : ChainSonar) (api : explorer)
    (address name : string) (start : option Z) :
  last_seen_block self !! address = Some start ->
  absent_or_null (api (txlist_params address start)) ->
  absent_or_null (api (tokentx_params address start)) ->
  fetch_transactions self api address = inr (PyList []) /\
  scan_target self api address name = Done self [].
Proof.
  intros Hw H1 H2.
  assert (Hf : fetch_transactions self api address = inr (PyList [])).
  { unfold fetch_transactions. rewrite Hw.
    destruct H1 as [-> | ->], H2 as [-> | ->]; reflexivity. }
  split; [exact Hf|]. unfold scan_target. now rewrite Hf.
Qed.

Lemma empty_result_changes_nothing_witness :
  fetch_transactions Sample.sonar Sample.no_result "0xaaa" = inr (PyList []) /\
  scan_target Sample.sonar Sample.no_result "0xaaa" "Whale1" = Done Sample.sonar [].
Proof.
  apply (empty_result_changes_nothing Sample.sonar Sample.no_result
           "0xaaa" "Whale1" None).
  - reflexivity.
  - left. reflexivity.
  - right. reflexivity.
Defined.

(** ** Errors *)

(** C4 (as the claim states it, refuted): the network fails for the first
    wallet; the second wallet, scanned on its own, would raise an alert for
    20 ETH; the cycle ends with the first wallet's error, so not every
    alert of the remaining target is emitted, and the second watermark is
    still unset.  The same happens when the first wallet's record is
    malformed. *)
Lemma failure_is_not_confined :
  run_cycle Sample.sonar Sample.down_for_a =
    Raised EnvironmentError Sample.sonar [] /\
  ~ (forall a,
       In a (alerts_of (scan_target Sample.sonar Sample.down_for_a "0xbbb" "Whale2")) ->
       In a (alerts_of (run_cycle Sample.sonar Sample.down_for_a))) /\
  run_cycle Sample.sonar Sample.malformed_for_a =
    Raised ValueError (set_last_seen Sample.sonar "0xaaa" 103) [] /\
  last_seen_block (state_of (run_cycle Sample.sonar Sample.malformed_for_a)) !! "0xbbb"
    = Some None.
Proof.
  split; [vm_compute; reflexivity|].
  split; [|split; vm_compute; reflexivity].
  intros H.
  apply (H {| a_name := "Whale2"; a_address := "0xbbb"; a_amount := 20;
              a_symbol := "ETH"; a_hash := "0x01" |}).
  vm_compute. left. reflexivity.
Qed.

(** C4 (amended): an exception raised by the fetch or by the records of
    one target, in any cycle, ends that cycle and [run]: the targets before
    it have been scanned, the targets after it are not, no further cycle
    starts, and the object and the alerts are those reached when the
    exception was raised. *)
Theorem failure_ends_the_run (self : ChainSonar) (api : nat -> explorer)
    (pre post : list (string * string)) (address name : string)
    (sk s1 s2 : ChainSonar) (ak a1 a2 : list alert) (e : exn) (k n : nat) :
  run_cycles k 0 self api = Done sk ak ->
  targets sk = (pre ++ (address, name) :: post)%list ->
  scan_targets sk (api k) pre = Done s1 a1 ->
  scan_target s1 (api k) address name = Raised e s2 a2 ->
  run_cycle sk (api k) = Raised e s2 (a1 ++ a2) /\
  run (k + S n) self api = Raised e s2 (ak ++ a1 ++ a2).
Proof.
  intros Hk Ht Hpre Hx.
  assert (Hc : run_cycle sk (api k) = Raised e s2 (a1 ++ a2)).
  { unfold run_cycle. rewrite Ht, scan_targets_app, Hpre. simpl. now rewrite Hx. }
  split; [exact Hc|].
  unfold run. rewrite run_cycles_add, Hk, Nat.add_0_r. simpl. now rewrite Hc.
Qed.

(** The network fails for 0xaaa from the first cycle on. *)
Lemma failure_ends_the_run_witness :
  run_cycle Sample.sonar Sample.down_for_a = Raised EnvironmentError Sample.sonar [] /\
  run 3 Sample.sonar (fun _ => Sample.down_for_a) =
    Raised EnvironmentError Sample.sonar [].
Proof.
  apply (failure_ends_the_run Sample.sonar (fun _ => Sample.down_for_a)
           [] [("0xbbb", "Whale2")] "0xaaa" "Whale1"
           Sample.sonar Sample.sonar Sample.sonar [] [] [] EnvironmentError 0 2);
    vm_compute; reflexivity.
Defined.

(** ** What a fetch returns *)

Lemma or_empty_list (l : list tx) : or_empty (PyList l) = PyList l.
Proof. now destruct l. Qed.

Lemma or_empty_result (r : http_outcome) (v : pyval) (l : list tx) :
  get_result r = inr v -> or_empty v = PyList l ->
  l = [] \/ r = Body (ResultList l).
Proof.
  destruct r as [| |[| |l0|m]]; simpl; intros Hr Hv; try discriminate;
    injection Hr as <-.
  - left. simpl in Hv. congruence.
  - left. simpl in Hv. congruence.
  - right. rewrite or_empty_list in Hv. congruence.
  - left. destruct m; simpl in Hv; congruence.
Qed.

Lemma py_add_list (a b : pyval) (l : list tx) :
  py_add a b = inr (PyList l) ->
  exists l1 l2, a = PyList l1 /\ b = PyList l2 /\ l = (l1 ++ l2)%list.
Proof.
  destruct a as [|l1|s1], b as [|l2|s2]; simpl; intros H; try discriminate.
  injection H as <-. eauto.
Qed.

(** A list returned by [fetch_transactions] is made of the two lists the
    explorer returned for the stored watermark. *)
Lemma fetch_list_inv (self : ChainSonar) (api : explorer) (address : string)
    (l : list tx) :
  fetch_transactions self api address = inr (PyList l) ->
  exists start l1 l2,
    last_seen_block self !! address = Some start /\ l = (l1 ++ l2)%list /\
    (l1 = [] \/ api (txlist_params address start) = Body (ResultList l1)) /\
    (l2 = [] \/ api (tokentx_params address start) = Body (ResultList l2)).
Proof.
  unfold fetch_transactions.
  destruct (last_seen_block self !! address) as [start|]; [|discriminate].
  destruct (get_result (api (txlist_params address start))) as [e1|v1] eqn:E1;
    [discriminate|].
  destruct (get_result (api (tokentx_params address start))) as [e2|v2] eqn:E2;
    [discriminate|].
  intros H. apply py_add_list in H as (l1 & l2 & H1 & H2 & ->).
  exists start, l1, l2. repeat split.
  - exact (or_empty_result _ _ _ E1 H1).
  - exact (or_empty_result _ _ _ E2 H2).
Qed.

Lemma fetched_from_start (self : ChainSonar) (api : explorer) (address : string)
    (l : list tx) :
  lower_bounded api ->
  fetch_transactions self api address = inr (PyList l) ->
  exists start, last_seen_block self !! address = Some start /\
    Forall (fun t => from_block start (tx_blockNumber t)) l.
Proof.
  intros Hapi H.
  destruct (fetch_list_inv self api address l H)
    as (start & l1 & l2 & Hw & -> & H1 & H2).
  exists start. split; [exact Hw|]. apply Forall_app. split.
  - destruct H1 as [-> | H1]; [constructor|]. exact (Hapi _ _ H1).
  - destruct H2 as [-> | H2]; [constructor|]. exact (Hapi _ _ H2).
Qed.

(** The scan of a target leaves the object as it was, or moves the
    target's watermark to the block of the first record fetched. *)
Lemma scan_target_state (self : ChainSonar) (api : explorer) (address name : string) :
  state_of (scan_target self api address name) = self \/
  exists first rest,
    fetch_transactions self api address = inr (PyList (first :: rest)) /\
    state_of (scan_target self api address name) =
      set_last_seen self address (tx_blockNumber first).
Proof.
  unfold scan_target.
  destruct (fetch_transactions self api address) as [e|[|[|first rest]|[|c s]]];
    try (left; reflexivity).
  right. exists first, rest. split; [reflexivity|]. apply process_txs_state.
Qed.

(** ** The watermark *)

Lemma never_decreases_refl (address : string) (s : ChainSonar) :
  never_decreases address s s.
Proof. intros b Hb. exists b. split; [exact Hb|lia]. Qed.

Lemma never_decreases_trans (address : string) (s1 s2 s3 : ChainSonar) :
  never_decreases address s1 s2 -> never_decreases address s2 s3 ->
  never_decreases address s1 s3.
Proof.
  intros H12 H23 b Hb.
  destruct (H12 b Hb) as (b2 & Hb2 & Hle2).
  destruct (H23 b2 Hb2) as (b3 & Hb3 & Hle3).
  exists b3. split; [exact Hb3|lia].
Qed.

Lemma set_last_seen_monotone (self : ChainSonar) (address a : string)
    (start : option Z) (block : Z) :
  last_seen_block self !! address = Some start -> from_block start block ->
  never_decreases a self (set_last_seen self address block).
Proof.
  intros Hw Hfrom b Hb. simpl.
  destruct (decide (address = a)) as [<-|Hne].
  - exists block. rewrite lookup_insert_eq. split; [reflexivity|].
    rewrite Hw in Hb. injection Hb as ->. exact Hfrom.
  - exists b. rewrite lookup_insert_ne by exact Hne. split; [exact Hb|lia].
Qed.

Lemma scan_target_monotone (self : ChainSonar) (api : explorer)
    (address name a : string) :
  lower_bounded api ->
  never_decreases a self (state_of (scan_target self api address name)).
Proof.
  intros Hapi.
  destruct (scan_target_state self api address name)
    as [-> | (first & rest & Hf & ->)]; [apply never_decreases_refl|].
  destruct (fetched_from_start self api address _ Hapi Hf) as (start & Hw & Hall).
  apply (set_last_seen_monotone self address a start _ Hw).
  now inversion Hall.
Qed.

Lemma scan_targets_monotone (api : explorer) (a : string) (tg : list (string * string))
    (self : ChainSonar) :
  lower_bounded api ->
  never_decreases a self (state_of (scan_targets self api tg)).
Proof.
  intros Hapi. revert self.
  induction tg as [|[address name] r IH]; intros self; simpl;
    [apply never_decreases_refl|].
  pose proof (scan_target_monotone self api address name a Hapi) as Hstep.
  destruct (scan_target self api address name) as [s al|e s al]; simpl in *;
    [|exact Hstep].
  rewrite state_of_after.
  exact (never_decreases_trans a self s _ Hstep (IH s)).
Qed.

Lemma run_cycles_monotone (api : nat -> explorer) (a : string) (n k : nat)
    (self : ChainSonar) :
  (forall c, lower_bounded (api c)) ->
  never_decreases a self (state_of (run_cycles n k self api)).
Proof.
  intros Hapi. revert k self.
  induction n as [|n IH]; intros k self; simpl; [apply never_decreases_refl|].
  pose proof (scan_targets_monotone (api k) a (targets self) self (Hapi k)) as Hstep.
  unfold run_cycle.
  destruct (scan_targets self (api k) (targets self)) as [s al|e s al]; simpl in *;
    [|exact Hstep].
  rewrite state_of_after.
  exact (never_decreases_trans a self s _ Hstep (IH (S k) s)).
Qed.

Lemma honours_lower_bounded (api : explorer) : honours_request api -> lower_bounded api.
Proof. intros H p l Hp. exact (proj1 (H p l Hp)). Qed.

(** C3: against explorers that return records at or above [startblock],
    most recent first, the watermark of every address, once set, stays
    set and never decreases: after [m] cycles it is at most what it is
    after any [n >= m] cycles of the same run.  (Only the lower bound of
    the precondition is used.) *)
Theorem watermark_never_decreases (self : ChainSonar) (api : nat -> explorer)
    (address : string) (m n : nat) :
  (forall c, honours_request (api c)) -> (m <= n)%nat ->
  never_decreases address
    (state_of (run_cycles m 0 self api)) (state_of (run_cycles n 0 self api)).
Proof.
  intros Hapi Hmn.
  assert (Hlb : forall c, lower_bounded (api c)).
  { intros c. apply honours_lower_bounded, Hapi. }
  replace n with (m + (n - m))%nat by lia.
  rewrite run_cycles_add.
  destruct (run_cycles m 0 self api) as [s al|e s al]; simpl.
  - rewrite state_of_after. now apply run_cycles_monotone.
  - apply never_decreases_refl.
Qed.

(** ** The ledger explorer *)

Lemma from_blockb_iff (start : option Z) (block : Z) :
  from_blockb start block = true <-> from_block start block.
Proof.
  destruct start as [w|]; simpl; [apply Z.leb_le|tauto].
Qed.

Lemma descending_filter (f : tx -> bool) (l : list tx) :
  descending l -> descending (List.filter f l).
Proof.
  unfold descending. induction 1 as [|t r _ IH Hall]; simpl; [constructor|].
  destruct (f t); [|exact IH].
  constructor; [exact IH|].
  apply List.Forall_forall. intros x Hx. apply filter_In in Hx as [Hx _].
  revert x Hx. now apply List.Forall_forall.
Qed.

Lemma ledger_honours_request (native tokens : list tx) :
  descending native -> descending tokens ->
  honours_request (ledger_explorer native tokens).
Proof.
  intros Hn Ht p l Hp. unfold ledger_explorer in Hp. injection Hp as <-.
  split.
  - apply List.Forall_forall. intros x Hx. apply filter_In in Hx as [_ Hx].
    now apply from_blockb_iff.
  - apply descending_filter.
    destruct (String.eqb (p_action p) "txlist"); [exact Hn|].
    destruct (String.eqb (p_action p) "tokentx"); [exact Ht|constructor].
Qed.

(** Two cycles against the sample ledger. *)
Lemma watermark_never_decreases_witness :
  never_decreases "0xaaa"
    (state_of (run_cycles 1 0 Sample.sonar (fun _ => Sample.ledger)))
    (state_of (run_cycles 2 0 Sample.sonar (fun _ => Sample.ledger))).
Proof.
  apply (watermark_never_decreases Sample.sonar (fun _ => Sample.ledger) "0xaaa" 1 2).
  - intros _. apply ledger_honours_request.
    + repeat constructor; simpl; lia.
    + repeat constructor.
  - lia.
Defined.

(** The records of [l] at or above [start]. *)
Lemma ledger_fetch (self : ChainSonar) (native tokens : list tx) (address : string)
    (start : option Z) :
  last_seen_block self !! address = Some start ->
  fetch_transactions self (ledger_explorer native tokens) address =
    inr (PyList
           (List.filter (fun t => from_blockb start (tx_blockNumber t)) native ++
            List.filter (fun t => from_blockb start (tx_blockNumber t)) tokens)).
Proof.
  intros Hw. unfold fetch_transactions. rewrite Hw.
  unfold ledger_explorer. cbn -[or_empty List.filter]. now rewrite !or_empty_list.
Qed.

(** ** The record loop, record by record *)

Lemma process_txs_done_inv (self : ChainSonar) (address name : string)
    (txs : list tx) (s : ChainSonar) (al : list alert) :
  process_txs self address name txs = Done s al ->
  Forall (fun t => exists r, process_tx self address name t = inr r) txs.
Proof.
  revert s al. induction txs as [|t r IH]; intros s al; simpl; [constructor|].
  destruct (process_tx self address name t) as [e|[a|]] eqn:Ht; [discriminate| |].
  - destruct (process_txs self address name r) as [s' al'|]; [|discriminate].
    intros _. constructor; [eauto|]. exact (IH s' al' eq_refl).
  - intros H. constructor; [eauto|]. exact (IH s al H).
Qed.

Lemma process_txs_done (self : ChainSonar) (address name : string) (txs : list tx) :
  Forall (fun t => exists r, process_tx self address name t = inr r) txs ->
  exists al, process_txs self address name txs = Done self al.
Proof.
  induction 1 as [|t r [res Ht] _ [al IH]]; simpl; [eauto|].
  rewrite Ht, IH. destruct res; simpl; eauto.
Qed.

Lemma process_txs_alert_in (self : ChainSonar) (address name : string)
    (txs : list tx) (s : ChainSonar) (al : list alert) (t : tx) (a : alert) :
  process_txs self address name txs = Done s al ->
  In t txs -> process_tx self address name t = inr (Some a) -> In a al.
Proof.
  revert s al. induction txs as [|t0 r IH]; intros s al; simpl; [tauto|].
  intros Hdone Hin Ht.
  destruct (process_tx self address name t0) as [e|[a0|]] eqn:Ht0; [discriminate| |].
  - destruct (process_txs self address name r) as [s' al'|]; [|discriminate].
    simpl in Hdone. injection Hdone as _ <-.
    destruct Hin as [-> | Hin].
    + left. congruence.
    + right. exact (IH s' al' eq_refl Hin Ht).
  - destruct Hin as [-> | Hin]; [congruence|]. exact (IH s al Hdone Hin Ht).
Qed.

(** ** The watermark block is scanned again *)

(** The list fetched from a ledger for the bound [start]. *)
Lemma in_ledger_from (start : option Z) (native tokens : list tx) (t : tx) :
  In t (List.filter (fun x => from_blockb start (tx_blockNumber x)) native ++
        List.filter (fun x => from_blockb start (tx_blockNumber x)) tokens)
  <-> In t (native ++ tokens) /\ from_block start (tx_blockNumber t).
Proof.
  rewrite !in_app_iff, !filter_In, from_blockb_iff. tauto.
Qed.

Lemma from_block_trans (start : option Z) (w b : Z) :
  from_block start w -> w <= b -> from_block start b.
Proof. destruct start as [w0|]; simpl; [lia|tauto]. Qed.

(** C10: the request carries the stored watermark itself as [startblock],
    and the explorer's bound is inclusive.  So when a scan against a
    ledger leaves the watermark on the block of a qualifying record [t],
    that scan has raised the alert of [t], the next fetch returns the
    ledger from that very block on, [t] included, and the next scan raises
    the same alert again. *)
Theorem watermark_block_alerts_again (self : ChainSonar) (native tokens : list tx)
    (address name : string) (s1 : ChainSonar) (a1 : list alert) (t : tx) (a : alert) :
  scan_target self (ledger_explorer native tokens) address name = Done s1 a1 ->
  In t (native ++ tokens)%list ->
  last_seen_block s1 !! address = Some (Some (tx_blockNumber t)) ->
  process_tx self address name t = inr (Some a) ->
  In a a1 /\
  fetch_transactions s1 (ledger_explorer native tokens) address =
    inr (PyList
           (List.filter (fun x => tx_blockNumber t <=? tx_blockNumber x) native ++
            List.filter (fun x => tx_blockNumber t <=? tx_blockNumber x) tokens)) /\
  exists s2 a2,
    scan_target s1 (ledger_explorer native tokens) address name = Done s2 a2 /\
    In a a2.
Proof.
  intros Hscan Hin Hw1 Ha.
  pose proof (ledger_fetch s1 native tokens address _ Hw1) as Hf2.
  cbn [from_blockb] in Hf2.
  unfold scan_target in Hscan.
  destruct (last_seen_block self !! address) as [start|] eqn:Hw0;
    [|unfold fetch_transactions in Hscan; rewrite Hw0 in Hscan; discriminate].
  rewrite (ledger_fetch self native tokens address start Hw0) in Hscan.
  pose proof (in_ledger_from start native tokens) as Hl1.
  destruct (List.filter (fun x => from_blockb start (tx_blockNumber x)) native ++
            List.filter (fun x => from_blockb start (tx_blockNumber x)) tokens)%list
    as [|first rest].
  - (* nothing fetched: the watermark was already on the block of [t] *)
    exfalso. injection Hscan as <- <-.
    rewrite Hw0 in Hw1. injection Hw1 as ->.
    apply (Hl1 t). split; [exact Hin|simpl; lia].
  - assert (Hs1 : s1 = set_last_seen self address (tx_blockNumber first)).
    { rewrite <- (process_txs_state (set_last_seen self address (tx_blockNumber first))
                    address name (first :: rest)).
      now rewrite Hscan. }
    assert (Hb : tx_blockNumber first = tx_blockNumber t).
    { rewrite Hs1 in Hw1. simpl in Hw1. rewrite lookup_insert_eq in Hw1. congruence. }
    assert (Hfirst : from_block start (tx_blockNumber first)).
    { apply (Hl1 first). now left. }
    assert (Hall : Forall (fun x => exists r, process_tx self address name x = inr r)
                          (first :: rest)).
    { exact (process_txs_done_inv _ _ _ _ _ _ Hscan). }
    assert (Ht1 : In t (first :: rest)).
    { apply Hl1. split; [exact Hin|]. now rewrite <- Hb. }
    split; [exact (process_txs_alert_in _ _ _ _ _ _ _ _ Hscan Ht1 Ha)|].
    split; [exact Hf2|].
    unfold scan_target. rewrite Hf2.
    pose proof (in_ledger_from (Some (tx_blockNumber t)) native tokens) as Hl2.
    simpl in Hl2.
    destruct (List.filter (fun x => tx_blockNumber t <=? tx_blockNumber x) native ++
              List.filter (fun x => tx_blockNumber t <=? tx_blockNumber x) tokens)%list
      as [|first2 rest2].
    + exfalso. apply (Hl2 t). split; [exact Hin|lia].
    + destruct (process_txs_done (set_last_seen s1 address (tx_blockNumber first2))
                  address name (first2 :: rest2)) as [a2 Ha2].
      { apply List.Forall_forall. intros x Hx. apply Hl2 in Hx as [Hx Hle].
        rewrite Hs1.
        apply (proj1 (List.Forall_forall _ _) Hall x).
        apply Hl1. split; [exact Hx|].
        apply (from_block_trans start (tx_blockNumber first)); [exact Hfirst|lia]. }
      exists (set_last_seen s1 address (tx_blockNumber first2)), a2.
      split; [exact Ha2|].
      apply (process_txs_alert_in _ _ _ _ _ _ t a Ha2).
      * apply Hl2. split; [exact Hin|lia].
      * rewrite Hs1. exact Ha.
Qed.

(** Block 100 holds a transfer of 10 ETH to 0xaaa: two scans in a row
    raise its alert. *)
Lemma watermark_block_alerts_again_witness :
  In {| a_name := "Whale1"; a_address := "0xaaa"; a_amount := 10;
        a_symbol := "ETH"; a_hash := "0x02" |}
     (alerts_of (scan_target Sample.sonar Sample.ledger "0xaaa" "Whale1")) /\
  fetch_transactions (state_of (scan_target Sample.sonar Sample.ledger "0xaaa" "Whale1"))
    Sample.ledger "0xaaa" =
    inr (PyList [Sample.native_to_a; Sample.unwatched_to_a]) /\
  exists s2 a2,
    scan_target (state_of (scan_target Sample.sonar Sample.ledger "0xaaa" "Whale1"))
      Sample.ledger "0xaaa" "Whale1" = Done s2 a2 /\
    In {| a_name := "Whale1"; a_address := "0xaaa"; a_amount := 10;
          a_symbol := "ETH"; a_hash := "0x02" |} a2.
Proof.
  apply (watermark_block_alerts_again Sample.sonar
           [Sample.native_to_a; Sample.small_to_a] [Sample.unwatched_to_a]
           "0xaaa" "Whale1"
           (state_of (scan_target Sample.sonar Sample.ledger "0xaaa" "Whale1"))
           (alerts_of (scan_target Sample.sonar Sample.ledger "0xaaa" "Whale1"))
           Sample.native_to_a).
  - vm_compute. reflexivity.
  - left. reflexivity.
  - vm_compute. reflexivity.
  - vm_compute. reflexivity.
Defined.

(** * Further properties *)

(** ** The registry file *)

(** The second of two lines for the same wallet gives the name. *)
Lemma registry_last_wins_witness :
  PyDict.get "0xaaa" (registry_of ["0xAAA,Whale1"; "0xaaa, Renamed"; "0xbbb"])
    = Some "Renamed".
Proof.
  apply (registry_last_wins ["0xAAA,Whale1"] ["0xbbb"] "0xaaa, Renamed").
  - reflexivity.
  - repeat constructor. intros _. discriminate.
Defined.

Lemma set_keys_in {V} (k : string) (v : V) (d : list (string * V)) (x : string) :
  In x (map fst (PyDict.set k v d)) <-> x = k \/ In x (map fst d).
Proof.
  induction d as [|[k' v'] r IH]; simpl.
  - intuition congruence.
  - destruct (String.eqb_spec k' k) as [->|Hne]; simpl.
    + intuition congruence.
    + rewrite IH. intuition congruence.
Qed.

Lemma set_keys_nodup {V} (k : string) (v : V) (d : list (string * V)) :
  List.NoDup (map fst d) -> List.NoDup (map fst (PyDict.set k v d)).
Proof.
  induction d as [|[k' v'] r IH]; simpl; intros H.
  - constructor; [intros []|constructor].
  - inversion H as [|x l Hx Hl]; subst.
    destruct (String.eqb_spec k' k) as [->|Hne]; simpl.
    + constructor; assumption.
    + constructor; [|now apply IH].
      rewrite set_keys_in. intros [->|Hin]; [now apply Hne|now apply Hx].
Qed.

(** X3: the registry holds every address once, however often the file
    lists it. *)
Theorem registry_keys_distinct (lines : list string) :
  List.NoDup (map fst (registry_of lines)).
Proof.
  unfold registry_of.
  generalize (List.filter (fun l => negb (skipped l)) lines). intros kept.
  assert (H0 : List.NoDup (map fst (@nil (string * string)))) by constructor.
  revert H0. generalize (@nil (string * string)).
  induction kept as [|l r IH]; intros d Hd; [exact Hd|].
  cbn [fold_left]. apply IH. now apply set_keys_nodup.
Qed.

Lemma fold_keys_in (kept : list string) (d : list (string * string)) (a : string) :
  In a (map fst
          (fold_left (fun d l => PyDict.set (fst (parse_line l)) (snd (parse_line l)) d)
                     kept d))
  <-> In a (map fst d) \/ exists l, In l kept /\ fst (parse_line l) = a.
Proof.
  revert d. induction kept as [|l r IH]; intros d; cbn [fold_left].
  - split; [now left|]. intros [H|(l & [] & _)]. exact H.
  - rewrite IH, set_keys_in. split.
    + intros [[->|H]|(l' & Hl' & Ha)].
      * right. exists l. split; [now left|reflexivity].
      * now left.
      * right. exists l'. split; [now right|exact Ha].
    + intros [H|(l' & [<-|Hl'] & Ha)].
      * left. now right.
      * left. left. now symmetry.
      * right. exists l'. now split.
Qed.

(** X4: the addresses of the registry are those of the lines that are
    neither blank nor comments, no more and no less. *)
Theorem registry_keys_are_kept_addresses (lines : list string) (a : string) :
  In a (map fst (registry_of lines)) <->
  exists line, In line lines /\ skipped line = false /\ fst (parse_line line) = a.
Proof.
  unfold registry_of. rewrite fold_keys_in. simpl. split.
  - intros [[]|(l & Hl & Ha)]. apply filter_In in Hl as [Hl Hk].
    exists l. repeat split; [exact Hl| |exact Ha].
    now apply negb_true_iff.
  - intros (l & Hl & Hk & Ha). right. exists l. split; [|exact Ha].
    apply filter_In. split; [exact Hl|]. now apply negb_true_iff.
Qed.

Lemma unset_preserved (kept : list string) (m : gmap string (option Z)) (a : string) :
  m !! a = Some None ->
  fold_left (fun d l => <[fst (parse_line l) := None]> d) kept m !! a = Some None.
Proof.
  revert m. induction kept as [|l r IH]; intros m Hm; cbn [fold_left]; [exact Hm|].
  apply IH. destruct (decide (fst (parse_line l) = a)) as [->|Hne].
  - apply lookup_insert_eq.
  - now rewrite lookup_insert_ne.
Qed.

Lemma unset_after_line (kept : list string) (m : gmap string (option Z)) (a : string) :
  (exists l, In l kept /\ fst (parse_line l) = a) ->
  fold_left (fun d l => <[fst (parse_line l) := None]> d) kept m !! a = Some None.
Proof.
  revert m. induction kept as [|l r IH]; intros m (l' & Hl' & Ha); cbn [fold_left].
  - destruct Hl'.
  - destruct Hl' as [<-|Hl'].
    + apply unset_preserved. rewrite Ha. apply lookup_insert_eq.
    + apply IH. eauto.
Qed.

(** X5: called on an object that has the attribute, [load_targets]
    returns a registry that is not empty, and every address of it has an
    entry in [last_seen_block], unset. *)
Theorem loaded_targets_are_unmarked (m : gmap string (option Z))
    (file : whales_file) (tg : list (string * string))
    (lsb : option (gmap string (option Z))) :
  load_targets (Some m) file = inr (tg, lsb) ->
  tg <> [] /\
  exists m', lsb = Some m' /\
    forall a, In a (map fst tg) -> m' !! a = Some None.
Proof.
  unfold load_targets.
  destruct file as [| |lines [| |]]; try discriminate;
    rewrite load_lines_present; try discriminate.
  destruct (fold_left
              (fun d l => PyDict.set (fst (parse_line l)) (snd (parse_line l)) d)
              (List.filter (fun l => negb (skipped l)) lines) [])
    as [|kv r] eqn:Hreg; [discriminate|].
  intros H. injection H as <- <-.
  split; [discriminate|]. eexists. split; [reflexivity|].
  intros a Ha. apply unset_after_line.
  rewrite <- Hreg in Ha. apply fold_keys_in in Ha as [[]|Ha]. exact Ha.
Qed.

Lemma loaded_targets_are_unmarked_witness :
  [("0xa", "Whale")] <> [] /\
  exists m', Some (<["0xa" := None]> (∅ : gmap string (option Z))) = Some m' /\
    forall a, In a (map fst [("0xa", "Whale")]) -> m' !! a = Some None.
Proof.
  apply (loaded_targets_are_unmarked ∅ (Opened Cases.one_whale EndOfFile)).
  vm_compute. reflexivity.
Defined.

(** X6: only a [#] in the first column makes a comment: a line that
    starts with a blank and is not blank throughout is read as a target,
    a [#] after the blank included. *)
Theorem indented_comment_is_kept (c : ascii) (rest : string) :
  Text.isspace c = true -> Text.strip (String c rest) <> EmptyString ->
  skipped (String c rest) = false.
Proof.
  intros Hc Hs. unfold skipped.
  destruct (Text.strip (String c rest)); [contradiction|].
  simpl. destruct (Ascii.eqb_spec c "#") as [->|_]; [discriminate|reflexivity].
Qed.

Lemma indented_comment_is_kept_witness : skipped " # retired wallets" = false.
Proof.
  apply (indented_comment_is_kept " " "# retired wallets").
  - reflexivity.
  - discriminate.
Defined.

Lemma split_comma_free (a : string) :
  comma_free a = true -> Text.split_comma a = [a].
Proof.
  induction a as [|c a IH]; simpl; [reflexivity|].
  destruct (Ascii.eqb c ","); simpl; [discriminate|].
  intros H. now rewrite (IH H).
Qed.

Lemma split_comma_app (a r : string) :
  comma_free a = true ->
  Text.split_comma (a ++ String "," r) = a :: Text.split_comma r.
Proof.
  induction a as [|c a IH]; simpl; [reflexivity|].
  destruct (Ascii.eqb c ","); simpl; [discriminate|].
  intros H. now rewrite (IH H).
Qed.

(** X7: on a line [address,name] the address is the first field without
    surrounding blanks, in lowercase, and the name is the second field
    without surrounding blanks; whatever follows a second comma is
    ignored. *)
Theorem fields_of_a_line (a b rest : string) :
  comma_free a = true -> comma_free b = true ->
  parse_line (a ++ "," ++ b) = (Text.lower (Text.strip a), Text.strip b) /\
  parse_line (a ++ "," ++ b ++ "," ++ rest) = (Text.lower (Text.strip a), Text.strip b).
Proof.
  intros Ha Hb. unfold parse_line.
  change ("," ++ b) with (String "," b).
  change ("," ++ b ++ "," ++ rest) with (String "," (b ++ String "," rest)).
  rewrite !(split_comma_app a) by exact Ha.
  rewrite (split_comma_free b Hb), (split_comma_app b rest Hb).
  split; reflexivity.
Qed.

Lemma fields_of_a_line_witness :
  parse_line (" 0xAAA " ++ "," ++ " Whale One ") = ("0xaaa", "Whale One") /\
  parse_line (" 0xAAA " ++ "," ++ " Whale One " ++ "," ++ "since 2021, cold")
    = ("0xaaa", "Whale One").
Proof.
  apply (fields_of_a_line " 0xAAA " " Whale One " "since 2021, cold"); reflexivity.
Defined.

(** ** The program as a whole *)

(** X8: the constructor never returns a scanner, so the program never
    scans and never alerts.  It ends with status 0 when the API key is
    missing, when the file is there but cannot be opened, and when the
    reading fails before any target line has come; it ends with status 1
    when the file is missing, when it is read to its end without a
    target, and when a target line has come. *)
Theorem program_exit_status (api_key : option string) (file : whales_file)
    (eth stable : Q) (api : nat -> explorer) (n : nat) :
  main api_key file eth stable api n =
    {| status :=
         if key_missing api_key then 0
         else match file with
              | Missing => 1
              | NotOpened => 0
              | Opened lines ending =>
                  if forallb skipped lines
                  then match ending with EndOfFile => 1 | _ => 0 end
                  else 1
              end;
       entered_loop := false; emitted := [] |}.
Proof.
  unfold main, init. destruct (key_missing api_key); [reflexivity|].
  destruct file as [| |lines ending]; [reflexivity|reflexivity|].
  unfold load_targets. destruct (forallb skipped lines) eqn:Hl.
  - rewrite (skipped_lines_load lines [] None Hl). now destruct ending.
  - now rewrite (kept_line_raises lines [] Hl).
Qed.

(** ** What a run changes *)

Lemma same_configuration_refl (s : ChainSonar) : same_configuration s s.
Proof. repeat split. Qed.

Lemma same_configuration_trans (s1 s2 s3 : ChainSonar) :
  same_configuration s1 s2 -> same_configuration s2 s3 -> same_configuration s1 s3.
Proof. unfold same_configuration. intuition congruence. Qed.

Lemma scan_target_configuration (self : ChainSonar) (api : explorer)
    (address name : string) :
  same_configuration self (state_of (scan_target self api address name)).
Proof.
  destruct (scan_target_state self api address name) as [-> | (first & rest & _ & ->)];
    repeat split.
Qed.

Lemma scan_targets_configuration (api : explorer) (tg : list (string * string))
    (self : ChainSonar) :
  same_configuration self (state_of (scan_targets self api tg)).
Proof.
  revert self. induction tg as [|[address name] r IH]; intros self; simpl;
    [apply same_configuration_refl|].
  pose proof (scan_target_configuration self api address name) as Hstep.
  destruct (scan_target self api address name) as [s al|e s al]; simpl in *;
    [|exact Hstep].
  rewrite state_of_after. exact (same_configuration_trans _ _ _ Hstep (IH s)).
Qed.

(** X9: a run never changes the registry or the thresholds, whatever
    the explorer answers and however the run ends. *)
Theorem run_keeps_configuration (n k : nat) (self : ChainSonar)
    (api : nat -> explorer) :
  same_configuration self (state_of (run_cycles n k self api)).
Proof.
  revert k self. induction n as [|n IH]; intros k self; simpl;
    [apply same_configuration_refl|].
  pose proof (scan_targets_configuration (api k) (targets self) self) as Hstep.
  unfold run_cycle.
  destruct (scan_targets self (api k) (targets self)) as [s al|e s al]; simpl in *;
    [|exact Hstep].
  rewrite state_of_after. exact (same_configuration_trans _ _ _ Hstep (IH (S k) s)).
Qed.

(** A relation between objects that every scan of a target of [tg]
    establishes, and that is reflexive and transitive, holds across a
    loop over [tg] and across a run whose registry is [tg]. *)
Section Lifting.

Variable R : ChainSonar -> ChainSonar -> Prop.
Variable tg : list (string * string).
Hypothesis R_refl : forall s, R s s.
Hypothesis R_trans : forall s1 s2 s3, R s1 s2 -> R s2 s3 -> R s1 s3.
Hypothesis R_scan : forall s api address name,
  In (address, name) tg -> R s (state_of (scan_target s api address name)).

Lemma scan_targets_lift (api : explorer) (part : list (string * string))
    (self : ChainSonar) :
  incl part tg -> R self (state_of (scan_targets self api part)).
Proof.
  revert self. induction part as [|[address name] r IH]; intros self Hincl; simpl;
    [apply R_refl|].
  assert (Hin : In (address, name) tg) by (apply Hincl; now left).
  pose proof (R_scan self api address name Hin) as Hstep.
  destruct (scan_target self api address name) as [s al|e s al]; simpl in *;
    [|exact Hstep].
  rewrite state_of_after. apply (R_trans _ s); [exact Hstep|].
  apply IH. intros x Hx. apply Hincl. now right.
Qed.

Lemma run_cycles_lift (api : nat -> explorer) (n k : nat) (self : ChainSonar) :
  targets self = tg -> R self (state_of (run_cycles n k self api)).
Proof.
  revert k self. induction n as [|n IH]; intros k self Htg; simpl; [apply R_refl|].
  unfold run_cycle.
  pose proof (scan_targets_lift (api k) (targets self) self) as Hstep.
  pose proof (scan_targets_configuration (api k) (targets self) self) as (Hsame & _).
  destruct (scan_targets self (api k) (targets self)) as [s al|e s al]; simpl in *.
  - rewrite state_of_after. apply (R_trans _ s).
    + apply Hstep. rewrite Htg. apply incl_refl.
    + apply IH. congruence.
  - apply Hstep. rewrite Htg. apply incl_refl.
Qed.

End Lifting.

(** X10: a run touches the watermarks of the registry's addresses only:
    the entry of any other address, present or not, is as before. *)
Theorem other_watermarks_untouched (n k : nat) (self : ChainSonar)
    (api : nat -> explorer) (a : string) :
  ~ In a (map fst (targets self)) ->
  last_seen_block (state_of (run_cycles n k self api)) !! a = last_seen_block self !! a.
Proof.
  intros Hout.
  apply (run_cycles_lift
           (fun s1 s2 => last_seen_block s2 !! a = last_seen_block s1 !! a)
           (targets self)); [reflexivity|congruence| |reflexivity].
  intros s api0 address name Hin.
  destruct (scan_target_state s api0 address name) as [-> | (first & rest & _ & ->)];
    [reflexivity|].
  simpl. apply lookup_insert_ne. intros <-. apply Hout.
  apply in_map_iff. exists (address, name). now split.
Qed.

Lemma other_watermarks_untouched_witness :
  last_seen_block (state_of (run_cycles 2 0 Sample.sonar (fun _ => Sample.ledger)))
    !! "0xccc" = last_seen_block Sample.sonar !! "0xccc".
Proof.
  apply (other_watermarks_untouched 2 0 Sample.sonar (fun _ => Sample.ledger) "0xccc").
  simpl. intros [H|[H|[]]]; discriminate.
Defined.

(** X11: an address that has an entry in [last_seen_block], set or
    not, still has one after a run, whatever the explorer answers: the
    loop assigns entries and deletes none. *)
Theorem watermark_entry_persists (n k : nat) (self : ChainSonar)
    (api : nat -> explorer) (a : string) (w : option Z) :
  last_seen_block self !! a = Some w ->
  exists w', last_seen_block (state_of (run_cycles n k self api)) !! a = Some w'.
Proof.
  intros Hentry.
  apply (run_cycles_lift
           (fun s1 s2 => (exists x, last_seen_block s1 !! a = Some x) ->
                         exists y, last_seen_block s2 !! a = Some y)
           (targets self)); [tauto|tauto| |reflexivity|eauto].
  intros s api0 address name _ Hx.
  destruct (scan_target_state s api0 address name) as [-> | (first & rest & _ & ->)];
    [exact Hx|].
  simpl. destruct (decide (address = a)) as [<-|Hne].
  - rewrite lookup_insert_eq. eauto.
  - now rewrite lookup_insert_ne.
Qed.

(** Two cycles against the sample ledger, which move the watermark of
    0xaaa and leave the entry of 0xbbb as it is. *)
Lemma watermark_entry_persists_witness :
  exists w',
    last_seen_block
      (state_of (run_cycles 2 0 Sample.sonar (fun _ => Sample.ledger))) !! "0xaaa"
    = Some w'.
Proof.
  apply (watermark_entry_persists 2 0 Sample.sonar (fun _ => Sample.ledger)
           "0xaaa" None).
  vm_compute. reflexivity.
Defined.

(** ** What a fetch does to the scan *)

(** X12: when the explorer returns native records, the watermark becomes
    the block of the first of them, whatever the blocks of the token
    records that follow, and also when a record of the batch then raises. *)
Theorem watermark_is_first_native_block (self : ChainSonar) (api : explorer)
    (address name : string) (start : option Z) (first : tx) (natives tokens : list tx) :
  last_seen_block self !! address = Some start ->
  api (txlist_params address start) = Body (ResultList (first :: natives)) ->
  api (tokentx_params address start) = Body (ResultList tokens) ->
  state_of (scan_target self api address name) =
    set_last_seen self address (tx_blockNumber first) /\
  last_seen_block (state_of (scan_target self api address name)) !! address =
    Some (Some (tx_blockNumber first)).
Proof.
  intros Hw H1 H2.
  assert (Hs : state_of (scan_target self api address name) =
               set_last_seen self address (tx_blockNumber first)).
  { unfold scan_target, fetch_transactions. rewrite Hw, H1, H2.
    destruct tokens as [|t ts]; cbn -[process_txs]; apply process_txs_state. }
  split; [exact Hs|]. rewrite Hs. simpl. apply lookup_insert_eq.
Qed.

(** A native transfer in block 100, then a token transfer in block 102:
    the watermark is 100. *)
Lemma watermark_is_first_native_block_witness :
  state_of (scan_target Sample.sonar Cases.mixed "0xaaa" "Whale1") =
    set_last_seen Sample.sonar "0xaaa" 100 /\
  last_seen_block (state_of (scan_target Sample.sonar Cases.mixed "0xaaa" "Whale1"))
    !! "0xaaa" = Some (Some 100).
Proof.
  apply (watermark_is_first_native_block Sample.sonar Cases.mixed "0xaaa" "Whale1"
           None Sample.native_to_a [] [Sample.unwatched_to_a]);
    vm_compute; reflexivity.
Defined.

(** X13: when either response carries a text in place of the list of
    records, the scan of the target raises [TypeError]; nothing has been
    assigned and no alert emitted. *)
Theorem error_text_raises_type_error (self : ChainSonar) (api : explorer)
    (address name : string) (start : option Z) (r1 r2 : json_result) :
  last_seen_block self !! address = Some start ->
  api (txlist_params address start) = Body r1 ->
  api (tokentx_params address start) = Body r2 ->
  error_text r1 || error_text r2 = true ->
  scan_target self api address name = Raised TypeError self [].
Proof.
  intros Hw H1 H2 Htext. unfold scan_target, fetch_transactions.
  rewrite Hw, H1, H2.
  destruct r1 as [| |[|t1 l1]|[|c1 m1]], r2 as [| |[|t2 l2]|[|c2 m2]];
    simpl in Htext; try discriminate; reflexivity.
Qed.

Lemma error_text_raises_type_error_witness :
  scan_target Sample.sonar Cases.rate_limited "0xaaa" "Whale1" =
    Raised TypeError Sample.sonar [].
Proof.
  apply (error_text_raises_type_error Sample.sonar Cases.rate_limited
           "0xaaa" "Whale1" None (ResultText "Max rate limit reached") (ResultList []));
    vm_compute; reflexivity.
Defined.

(** X14: when the first target of the registry has no entry in
    [last_seen_block], as with the empty dict the constructor assigns
    after loading the registry, the run ends at its first fetch with
    [KeyError], before any request is sent. *)
Theorem run_without_watermark_raises (self : ChainSonar) (api : nat -> explorer)
    (address name : string) (rest : list (string * string)) (n : nat) :
  targets self = (address, name) :: rest ->
  last_seen_block self !! address = None ->
  run (S n) self api = Raised KeyError self [].
Proof.
  intros Ht Hw. unfold run. simpl. unfold run_cycle. rewrite Ht. simpl.
  unfold scan_target, fetch_transactions. now rewrite Hw.
Qed.

Lemma run_without_watermark_raises_witness :
  run 1 Cases.unmarked (fun _ => Sample.ledger) = Raised KeyError Cases.unmarked [].
Proof.
  apply (run_without_watermark_raises Cases.unmarked (fun _ => Sample.ledger)
           "0xa" "Whale" [] 0); reflexivity.
Defined.

(** ** Where alerts come from *)

Lemma alerts_of_after (b : list alert) (o : outcome) :
  alerts_of (after b o) = (b ++ alerts_of o)%list.
Proof. now destruct o. Qed.

Lemma process_txs_alert_inv (self : ChainSonar) (address name : string)
    (txs : list tx) (a : alert) :
  In a (alerts_of (process_txs self address name txs)) ->
  exists t, In t txs /\ process_tx self address name t = inr (Some a).
Proof.
  induction txs as [|t r IH]; simpl; [tauto|].
  destruct (process_tx self address name t) as [e|[a0|]] eqn:Ht; simpl.
  - tauto.
  - rewrite alerts_of_after. simpl. intros [<-|Hin].
    + exists t. split; [now left|exact Ht].
    + destruct (IH Hin) as (t' & Ht' & Hp). exists t'. split; [now right|exact Hp].
  - intros Hin. destruct (IH Hin) as (t' & Ht' & Hp).
    exists t'. split; [now right|exact Hp].
Qed.

(** The three values the loop computes for a record: those of a native
    transfer, or the initial ones. *)
Lemma classify_cases (self : ChainSonar) (t : tx) (amount thr : Q) (sym : string) :
  classify self t = inr (amount, sym, thr) ->
  (sym = "ETH" /\ thr = eth_threshold self /\ tx_tokenSymbol t = None) \/
  (sym = EmptyString /\ amount = 0%Q /\ thr = 0%Q).
Proof.
  unfold classify. destruct (tx_tokenSymbol t) as [s|].
  - destruct (tx_contractAddress t) as [c|]; [|discriminate].
    rewrite lowered_never_watched. intros H. injection H as <- <- <-. now right.
  - destruct (Text.int_of_string (tx_value t)) as [v|]; [|discriminate].
    destruct (truediv_error v (10 ^ 18)); [discriminate|].
    intros H. injection H as <- <- <-. now left.
Qed.

Lemma process_tx_alert_shape (self : ChainSonar) (address name : string)
    (t : tx) (a : alert) :
  process_tx self address name t = inr (Some a) ->
  Text.lower (tx_to t) = address /\ a_hash a = tx_hash t /\
  a_address a = address /\ a_name a = name /\
  (a_symbol a = "ETH" \/ (a_symbol a = EmptyString /\ a_amount a = 0%Q)).
Proof.
  unfold process_tx.
  destruct (String.eqb_spec (Text.lower (tx_to t)) address) as [Hto|_]; simpl;
    [|discriminate].
  destruct (classify self t) as [e|[[amount sym] thr]] eqn:Hc; [discriminate|].
  destruct (qualifies amount thr); [|discriminate].
  intros H. injection H as <-. simpl. repeat split; try assumption.
  destruct (classify_cases self t amount thr sym Hc) as [(-> & _)|(-> & -> & _)];
    [now left|now right].
Qed.

Lemma scan_target_alert_inv (self : ChainSonar) (api : explorer)
    (address name : string) (a : alert) :
  In a (alerts_of (scan_target self api address name)) ->
  exists l t, fetch_transactions self api address = inr (PyList l) /\ In t l /\
    process_tx self address name t = inr (Some a).
Proof.
  unfold scan_target.
  destruct (fetch_transactions self api address) as [e|[|[|first rest]|[|c s]]];
    cbn -[process_txs]; try tauto.
  intros Hin. apply process_txs_alert_inv in Hin as (t & Ht & Hp).
  exists (first :: rest), t. repeat split; assumption.
Qed.

Lemma scan_targets_alert_inv (api : explorer) (tg : list (string * string))
    (self : ChainSonar) (a : alert) :
  In a (alerts_of (scan_targets self api tg)) ->
  exists s address name,
    In (address, name) tg /\ In a (alerts_of (scan_target s api address name)).
Proof.
  revert self. induction tg as [|[address name] r IH]; intros self; simpl; [tauto|].
  destruct (scan_target self api address name) as [s al|e s al] eqn:Hs.
  - rewrite alerts_of_after. intros Hin. apply in_app_or in Hin as [Hin|Hin].
    + exists self, address, name. split; [now left|]. now rewrite Hs.
    + destruct (IH s Hin) as (s' & ad & nm & Hreg & Ha).
      exists s', ad, nm. split; [now right|exact Ha].
  - simpl. intros Hin. exists self, address, name. split; [now left|].
    now rewrite Hs.
Qed.

Lemma run_cycles_alert_inv (api : nat -> explorer) (n k : nat) (self : ChainSonar)
    (a : alert) :
  In a (alerts_of (run_cycles n k self api)) ->
  exists c s address name,
    In (address, name) (targets self) /\
    In a (alerts_of (scan_target s (api c) address name)).
Proof.
  revert k self. induction n as [|n IH]; intros k self; simpl; [tauto|].
  unfold run_cycle.
  pose proof (scan_targets_configuration (api k) (targets self) self) as (Hsame & _).
  destruct (scan_targets self (api k) (targets self)) as [s al|e s al] eqn:Hs;
    simpl in Hsame.
  - rewrite alerts_of_after. intros Hin. apply in_app_or in Hin as [Hin|Hin].
    + replace al with (alerts_of (scan_targets self (api k) (targets self))) in Hin
        by now rewrite Hs.
      apply scan_targets_alert_inv in Hin as (s' & ad & nm & Hreg & Ha).
      exists k, s', ad, nm. now split.
    + destruct (IH (S k) s Hin) as (c & s' & ad & nm & Hreg & Ha).
      exists c, s', ad, nm. split; [congruence|exact Ha].
  - simpl. intros Hin.
    replace al with (alerts_of (scan_targets self (api k) (targets self))) in Hin
      by now rewrite Hs.
    apply scan_targets_alert_inv in Hin as (s' & ad & nm & Hreg & Ha).
    exists k, s', ad, nm. now split.
Qed.

(** X15: every alert of a run is for a wallet of the registry, under the
    name the registry gives it. *)
Theorem alerts_name_registered_wallets (n k : nat) (self : ChainSonar)
    (api : nat -> explorer) (a : alert) :
  In a (alerts_of (run_cycles n k self api)) ->
  In (a_address a, a_name a) (targets self).
Proof.
  intros Hin. apply run_cycles_alert_inv in Hin as (c & s & ad & nm & Hreg & Ha).
  apply scan_target_alert_inv in Ha as (l & t & _ & _ & Hp).
  apply process_tx_alert_shape in Hp as (_ & _ & -> & -> & _). exact Hreg.
Qed.

Lemma alerts_name_registered_wallets_witness :
  In ("0xaaa", "Whale1") (targets Sample.sonar).
Proof.
  apply (alerts_name_registered_wallets 1 0 Sample.sonar (fun _ => Sample.ledger)
           {| a_name := "Whale1"; a_address := "0xaaa"; a_amount := 10;
              a_symbol := "ETH"; a_hash := "0x02" |}).
  vm_compute. left. reflexivity.
Defined.

(** X16: no alert of a run names a token: its symbol is ETH, or it is
    empty and the amount is 0. *)
Theorem alerts_never_name_a_token (n k : nat) (self : ChainSonar)
    (api : nat -> explorer) (a : alert) :
  In a (alerts_of (run_cycles n k self api)) ->
  a_symbol a = "ETH" \/ (a_symbol a = EmptyString /\ a_amount a = 0%Q).
Proof.
  intros Hin. apply run_cycles_alert_inv in Hin as (c & s & ad & nm & _ & Ha).
  apply scan_target_alert_inv in Ha as (l & t & _ & _ & Hp).
  now apply process_tx_alert_shape in Hp as (_ & _ & _ & _ & Hsym).
Qed.

Lemma alerts_never_name_a_token_witness :
  "" = "ETH" \/ ("" = EmptyString /\ 0%Q = 0%Q).
Proof.
  apply (alerts_never_name_a_token 1 0 Sample.sonar (fun _ => Sample.ledger)
           {| a_name := "Whale1"; a_address := "0xaaa"; a_amount := 0;
              a_symbol := ""; a_hash := "0x06" |}).
  vm_compute. right. left. reflexivity.
Defined.

(** X17: every alert of a scan stems from a record of the batch just
    fetched whose [to] is the target's address, letter case aside, and
    carries that record's hash. *)
Theorem alerts_stem_from_incoming_records (self : ChainSonar) (api : explorer)
    (address name : string) (a : alert) :
  In a (alerts_of (scan_target self api address name)) ->
  exists l t, fetch_transactions self api address = inr (PyList l) /\ In t l /\
    Text.lower (tx_to t) = address /\ a_hash a = tx_hash t.
Proof.
  intros Hin. apply scan_target_alert_inv in Hin as (l & t & Hf & Ht & Hp).
  apply process_tx_alert_shape in Hp as (Hto & Hh & _).
  exists l, t. repeat split; assumption.
Qed.

Lemma alerts_stem_from_incoming_records_witness :
  exists l t,
    fetch_transactions Sample.sonar Sample.ledger "0xaaa" = inr (PyList l) /\ In t l /\
    Text.lower (tx_to t) = "0xaaa" /\ "0x02" = tx_hash t.
Proof.
  apply (alerts_stem_from_incoming_records Sample.sonar Sample.ledger "0xaaa" "Whale1"
           {| a_name := "Whale1"; a_address := "0xaaa"; a_amount := 10;
              a_symbol := "ETH"; a_hash := "0x02" |}).
  vm_compute. left. reflexivity.
Defined.

(** ** Thresholds *)

Lemma classify_lower_thresholds (self self' : ChainSonar) (t : tx) :
  (eth_threshold self' <= eth_threshold self)%Q ->
  (stable_threshold self' <= stable_threshold self)%Q ->
  match classify self t with
  | inl e => classify self' t = inl e
  | inr (amount, sym, thr) =>
      exists thr', classify self' t = inr (amount, sym, thr') /\ (thr' <= thr)%Q
  end.
Proof.
  intros He Hs. unfold classify. destruct (tx_tokenSymbol t) as [s|].
  - destruct (tx_contractAddress t) as [c|]; [|reflexivity].
    destruct (PyDict.get (Text.lower c) WATCHED_TOKENS) as [info|].
    + destruct (Text.int_of_string (tx_value t)) as [v|]; [|reflexivity].
      destruct (truediv_error v (10 ^ decimals info)); [reflexivity|].
      eexists. split; [reflexivity|].
      now destruct (String.eqb (symbol info) "WETH").
    + eexists. split; [reflexivity|apply Qle_refl].
  - destruct (Text.int_of_string (tx_value t)) as [v|]; [|reflexivity].
    destruct (truediv_error v (10 ^ 18)); [reflexivity|].
    eexists. split; [reflexivity|exact He].
Qed.

Lemma process_tx_lower_thresholds (self self' : ChainSonar) (address name : string)
    (t : tx) :
  (eth_threshold self' <= eth_threshold self)%Q ->
  (stable_threshold self' <= stable_threshold self)%Q ->
  match process_tx self address name t with
  | inl e => process_tx self' address name t = inl e
  | inr None => exists r, process_tx self' address name t = inr r
  | inr (Some a) => process_tx self' address name t = inr (Some a)
  end.
Proof.
  intros He Hs. unfold process_tx.
  destruct (negb (String.eqb (Text.lower (tx_to t)) address)); [eauto|].
  pose proof (classify_lower_thresholds self self' t He Hs) as Hc.
  destruct (classify self t) as [e|[[amount sym] thr]].
  - now rewrite Hc.
  - destruct Hc as (thr' & -> & Hle). unfold qualifies.
    destruct (Qle_bool thr amount) eqn:Hq.
    + apply Qle_bool_iff in Hq.
      assert (Hq' : Qle_bool thr' amount = true).
      { apply Qle_bool_iff. now apply (Qle_trans _ thr). }
      now rewrite Hq'.
    + destruct (Qle_bool thr' amount); eauto.
Qed.

Lemma process_txs_lower_thresholds (self self' : ChainSonar) (address name : string)
    (txs : list tx) (a : alert) :
  (eth_threshold self' <= eth_threshold self)%Q ->
  (stable_threshold self' <= stable_threshold self)%Q ->
  In a (alerts_of (process_txs self address name txs)) ->
  In a (alerts_of (process_txs self' address name txs)).
Proof.
  intros He Hs. induction txs as [|t r IH]; simpl; [tauto|].
  pose proof (process_tx_lower_thresholds self self' address name t He Hs) as Hp.
  destruct (process_tx self address name t) as [e|[a0|]]; simpl.
  - tauto.
  - rewrite Hp, !alerts_of_after. simpl. tauto.
  - destruct Hp as ([a'|] & ->); [|exact IH].
    rewrite alerts_of_after. simpl. tauto.
Qed.

(** X18: lowering the thresholds loses no alert: a scan of the same
    target against the same answers, with thresholds at or below the
    former ones, emits every alert the former scan emits. *)
Theorem lower_thresholds_keep_alerts (self self' : ChainSonar) (api : explorer)
    (address name : string) (a : alert) :
  last_seen_block self' = last_seen_block self ->
  (eth_threshold self' <= eth_threshold self)%Q ->
  (stable_threshold self' <= stable_threshold self)%Q ->
  In a (alerts_of (scan_target self api address name)) ->
  In a (alerts_of (scan_target self' api address name)).
Proof.
  intros Hw He Hs.
  assert (Hf : fetch_transactions self' api address = fetch_transactions self api address).
  { unfold fetch_transactions. now rewrite Hw. }
  unfold scan_target. rewrite Hf.
  destruct (fetch_transactions self api address) as [e|[|[|first rest]|[|c s]]];
    cbn -[process_txs]; try tauto.
  now apply process_txs_lower_thresholds.
Qed.

Lemma lower_thresholds_keep_alerts_witness :
  In {| a_name := "Whale1"; a_address := "0xaaa"; a_amount := 10;
        a_symbol := "ETH"; a_hash := "0x02" |}
     (alerts_of (scan_target Cases.eager Sample.ledger "0xaaa" "Whale1")).
Proof.
  apply (lower_thresholds_keep_alerts Sample.sonar Cases.eager Sample.ledger
           "0xaaa" "Whale1").
  - reflexivity.
  - vm_compute. discriminate.
  - vm_compute. discriminate.
  - vm_compute. left. reflexivity.
Defined.

(** ** An explorer that does not change *)

Lemma filter_narrower {A} (p q : A -> bool) (l : list A) :
  (forall x, q x = true -> p x = true) ->
  List.filter q (List.filter p l) = List.filter q l.
Proof.
  intros Hqp. induction l as [|x r IH]; simpl; [reflexivity|].
  destruct (p x) eqn:Hp; simpl.
  - now rewrite IH.
  - destruct (q x) eqn:Hq; [|exact IH].
    apply Hqp in Hq. congruence.
Qed.

Lemma set_last_seen_twice (self : ChainSonar) (address : string) (b : Z) :
  set_last_seen (set_last_seen self address b) address b = set_last_seen self address b.
Proof. unfold set_last_seen. simpl. now rewrite insert_insert_eq. Qed.

(** X19: against a ledger that does not change, the scan of a target
    that ran to its end has reached a fixed point: the next scan of the
    target runs to its end too, leaves the object, the watermark included,
    exactly as it is, and emits only alerts the former scan has emitted.
    From then on every scan repeats the same alerts. *)
Theorem unchanged_ledger_repeats (self : ChainSonar) (native tokens : list tx)
    (address name : string) (s1 : ChainSonar) (a1 : list alert) :
  scan_target self (ledger_explorer native tokens) address name = Done s1 a1 ->
  exists a2,
    scan_target s1 (ledger_explorer native tokens) address name = Done s1 a2 /\
    (forall a, In a a2 -> In a a1).
Proof.
  intros Hscan. pose proof Hscan as Hfirst. unfold scan_target in Hscan.
  destruct (last_seen_block self !! address) as [start|] eqn:Hw0;
    [|unfold fetch_transactions in Hscan; rewrite Hw0 in Hscan; discriminate].
  rewrite (ledger_fetch self native tokens address start Hw0) in Hscan.
  destruct (List.filter (fun x => from_blockb start (tx_blockNumber x)) native ++
            List.filter (fun x => from_blockb start (tx_blockNumber x)) tokens)%list
    as [|first rest] eqn:El1.
  - injection Hscan as <- <-. exists []. split; [exact Hfirst|tauto].
  - assert (Hs1 : s1 = set_last_seen self address (tx_blockNumber first)).
    { rewrite <- (process_txs_state (set_last_seen self address (tx_blockNumber first))
                    address name (first :: rest)).
      now rewrite Hscan. }
    assert (Hp : from_blockb start (tx_blockNumber first) = true).
    { assert (Hin : In first
                      (List.filter (fun x => from_blockb start (tx_blockNumber x)) native ++
                       List.filter (fun x => from_blockb start (tx_blockNumber x)) tokens))
        by (rewrite El1; now left).
      apply in_app_or in Hin as [Hin|Hin]; now apply filter_In in Hin. }
    assert (Hqp : forall x : tx,
               (tx_blockNumber first <=? tx_blockNumber x) = true ->
               from_blockb start (tx_blockNumber x) = true).
    { intros x Hx. apply from_blockb_iff.
      apply (from_block_trans start (tx_blockNumber first));
        [now apply from_blockb_iff|now apply Z.leb_le]. }
    assert (Hw1 : last_seen_block s1 !! address = Some (Some (tx_blockNumber first))).
    { rewrite Hs1. simpl. apply lookup_insert_eq. }
    assert (Hl2 : (List.filter (fun x => tx_blockNumber first <=? tx_blockNumber x) native ++
                   List.filter (fun x => tx_blockNumber first <=? tx_blockNumber x) tokens)%list
                  = first :: List.filter
                               (fun x => tx_blockNumber first <=? tx_blockNumber x) rest).
    { rewrite <- (filter_narrower
                    (fun x => from_blockb start (tx_blockNumber x))
                    (fun x => tx_blockNumber first <=? tx_blockNumber x) native Hqp).
      rewrite <- (filter_narrower
                    (fun x => from_blockb start (tx_blockNumber x))
                    (fun x => tx_blockNumber first <=? tx_blockNumber x) tokens Hqp).
      rewrite <- List.filter_app, El1. simpl. now rewrite Z.leb_refl. }
    pose proof (ledger_fetch s1 native tokens address _ Hw1) as Hf2.
    cbn [from_blockb] in Hf2. rewrite Hl2 in Hf2.
    assert (Hsub : forall x,
               In x (first :: List.filter
                               (fun x => tx_blockNumber first <=? tx_blockNumber x) rest) ->
               In x (first :: rest)).
    { intros x [<-|Hx]; [now left|]. right. now apply filter_In in Hx. }
    assert (Hsame : set_last_seen s1 address (tx_blockNumber first) = s1).
    { rewrite Hs1. apply set_last_seen_twice. }
    rewrite <- Hs1 in Hscan.
    destruct (process_txs_done s1 address name
                (first :: List.filter
                            (fun x => tx_blockNumber first <=? tx_blockNumber x) rest))
      as [a2 Ha2].
    { apply List.Forall_forall. intros x Hx.
      apply (proj1 (List.Forall_forall _ _)
               (process_txs_done_inv _ _ _ _ _ _ Hscan) x (Hsub x Hx)). }
    exists a2. split.
    + unfold scan_target. rewrite Hf2. cbn -[process_txs]. rewrite Hsame. exact Ha2.
    + intros a Ha.
      assert (Hin : In a (alerts_of (process_txs s1 address name
                     (first :: List.filter
                        (fun x => tx_blockNumber first <=? tx_blockNumber x) rest))))
        by now rewrite Ha2.
      apply process_txs_alert_inv in Hin as (t & Ht & Hpt).
      exact (process_txs_alert_in _ _ _ _ _ _ _ _ Hscan (Hsub t Ht) Hpt).
Qed.

Lemma unchanged_ledger_repeats_witness :
  exists a2,
    scan_target (state_of (scan_target Sample.sonar Sample.ledger "0xaaa" "Whale1"))
      Sample.ledger "0xaaa" "Whale1" =
      Done (state_of (scan_target Sample.sonar Sample.ledger "0xaaa" "Whale1")) a2 /\
    (forall a, In a a2 ->
       In a (alerts_of (scan_target Sample.sonar Sample.ledger "0xaaa" "Whale1"))).
Proof.
  apply (unchanged_ledger_repeats Sample.sonar
           [Sample.native_to_a; Sample.small_to_a] [Sample.unwatched_to_a]
           "0xaaa" "Whale1").
  vm_compute. reflexivity.
Defined.
